(** * Exchange Autodiscover client (lib/index.js): a shallow embedding

    The JavaScript module is embedded function by function.  Values that the
    program handles dynamically (the fields of [params], the parsed XML tree)
    are terms of [Js.val]; a string is held as its UTF-8 text; promises are
    modelled by the value they settle to, together with a settling time
    where the program races them; the collaborators the module requires
    (the DNS resolver, the HTTP transport behind request-promise, the
    xml2js parser, and the engine's table of lower-case mappings) are the
    fields of a [World] record over which every definition is
    parametrised. *)

From Stdlib Require Import Ascii String ZArith Lia.
From stdpp Require Import base option list sorting strings gmap.

Local Open Scope string_scope.
Set Warnings "-register-all".

(** ** JavaScript values and the primitive operations the module relies on *)
Module Js.

Inductive val : Type :=
| Undefined
| Null
| Bool (b : bool)
| Str (s : string)
| Arr (elems : list val)
| Obj (fields : list (string * val)).

(** Exceptions and rejection reasons that can arise in the module.
    [TypeError] is raised by the engine on a property read of [undefined]
    or [null] and on a call of a non-function; [PlainError] is the
    [new Error()] of the redirect handler; [RequestError] and
    [StatusCodeError] are request-promise's rejections; [AggregateError]
    and [RangeError] are Bluebird's. *)
Inductive error : Type :=
| TypeError
| RangeError
| PlainError
| RequestError (cause : string)
| StatusCodeError (code : Z)
| DnsError (code : string)
| XmlError (msg : string)
| AggregateError (reasons : list error).

(** Result of evaluating an expression that may throw. *)
Inductive completion (A : Type) : Type :=
| Normal (a : A)
| Throw (e : error).
Arguments Normal {A} a.
Arguments Throw {A} e.

Definition bind {A B} (c : completion A) (k : A -> completion B) : completion B :=
  match c with
  | Normal a => k a
  | Throw e => Throw e
  end.

(** ToBoolean.  Every array and object is truthy, the empty ones too. *)
Definition truthy (v : val) : bool :=
  match v with
  | Undefined | Null => false
  | Bool b => b
  | Str s => negb (String.eqb s "")
  | Arr _ | Obj _ => true
  end.

(** [a || b] *)
Definition or_else (a b : val) : val := if truthy a then a else b.

Definition nullish (v : val) : bool :=
  match v with
  | Undefined | Null => true
  | _ => false
  end.

(** [Array.prototype.join] on already converted elements. *)
Fixpoint join (sep : string) (l : list string) : string :=
  match l with
  | [] => ""
  | [s] => s
  | s :: rest => s ++ sep ++ join sep rest
  end.

(** ToString, as applied by template literals and by computed property
    keys.  An array is joined with commas, its [undefined] and [null]
    elements printing as the empty string. *)
Fixpoint to_string (v : val) : string :=
  match v with
  | Undefined => "undefined"
  | Null => "null"
  | Bool true => "true"
  | Bool false => "false"
  | Str s => s
  | Arr elems =>
      join ","
        ((fix each (l : list val) : list string :=
            match l with
            | [] => []
            | e :: rest => (if nullish e then "" else to_string e) :: each rest
            end) elems)
  | Obj _ => "[object Object]"
  end.

Fixpoint assoc (k : string) (fields : list (string * val)) : option val :=
  match fields with
  | [] => None
  | (k', v) :: rest => if String.eqb k k' then Some v else assoc k rest
  end.

(** Property read [v.k] for the property names the module reads
    ([envelope] ... [userSetting], [name], [value]).  None of them is
    defined on the String, Boolean, Array or Object prototypes, so on
    anything but an object with that own property the read yields
    [undefined]; on [undefined] and [null] it throws. *)
Definition get (v : val) (k : string) : completion val :=
  match v with
  | Undefined | Null => Throw TypeError
  | Obj fields => Normal (default Undefined (assoc k fields))
  | Bool _ | Str _ | Arr _ => Normal Undefined
  end.

(** [[].concat(v)]: an array argument is spread, anything else becomes
    the single element. *)
Definition concat_into_empty (v : val) : list val :=
  match v with
  | Arr elems => elems
  | _ => [v]
  end.

(** Strict equality with a string literal, as used by [indexOf]. *)
Definition is_str (s : string) (v : val) : bool :=
  match v with
  | Str s' => String.eqb s' s
  | _ => false
  end.

(** [arr.indexOf(s) === -1] *)
Definition index_of_is_minus_one (s : string) (arr : list val) : bool :=
  negb (existsb (is_str s) arr).

(** *** The object the program builds

    The settings are collected in an object created by the literal [{}],
    whose prototype is [Object.prototype].  That prototype defines the
    accessor [__proto__]: an assignment to this name that reaches the
    accessor stores no property; it replaces the prototype of the object
    when the value is an object or [null], and does nothing otherwise.
    The objects and arrays of a parsed tree are plain ones, whose own
    prototype chain ends in [Object.prototype]. *)

Inductive prototype : Type :=
| ObjectPrototype
| NullPrototype
| NodePrototype (node : val).

Record object : Type := Object {
  own : gmap string val;
  proto : prototype
}.

(** An object with the given own properties and the prototype of [{}]. *)
Definition plain (properties : gmap string val) : object :=
  Object properties ObjectPrototype.

(** Whether the assignment [o.__proto__ = v] reaches the accessor of
    [Object.prototype]: no own data property of that name on the object
    or on its prototype, and a prototype chain that ends in
    [Object.prototype]. *)
Definition reaches_proto_accessor (o : object) : bool :=
  match own o !! "__proto__" with
  | Some _ => false
  | None =>
      match proto o with
      | ObjectPrototype => true
      | NullPrototype => false
      | NodePrototype (Obj fields) =>
          match assoc "__proto__" fields with
          | Some _ => false
          | None => true
          end
      | NodePrototype _ => true
      end
  end.

(** [o[k] = v] *)
Definition set (o : object) (k : string) (v : val) : object :=
  if String.eqb k "__proto__" && reaches_proto_accessor o
  then match v with
       | Obj _ | Arr _ => Object (own o) (NodePrototype v)
       | Null => Object (own o) NullPrototype
       | _ => o
       end
  else Object (<[k := v]> (own o)) (proto o).

(** [o[k]] for the property name the module reads from the object,
    [ExternalEwsUrl]: the own property, else the one inherited from a
    parsed object set as prototype, else [undefined]. *)
Definition read (o : object) (k : string) : val :=
  match own o !! k with
  | Some v => v
  | None =>
      match proto o with
      | NodePrototype (Obj fields) => default Undefined (assoc k fields)
      | _ => Undefined
      end
  end.

(** *** String methods *)

(** [s.split(c)] for a one-character separator. *)
Fixpoint split (c : ascii) (s : string) : list string :=
  match s with
  | EmptyString => [""]
  | String a rest =>
      if Ascii.eqb a c then "" :: split c rest
      else match split c rest with
           | seg :: segs => String a seg :: segs
           | [] => [String a ""]
           end
  end.

(** [s.indexOf(c)] for a one-character needle; [-1] when absent. *)
Fixpoint index_of (c : ascii) (s : string) : Z :=
  match s with
  | EmptyString => (-1)%Z
  | String a rest =>
      if Ascii.eqb a c then 0%Z
      else let i := index_of c rest in
           if (i <? 0)%Z then (-1)%Z else (i + 1)%Z
  end.

Fixpoint drop (n : nat) (s : string) : string :=
  match n, s with
  | O, _ => s
  | S n', String _ rest => drop n' rest
  | S _, EmptyString => ""
  end.

(** [s.substr(start)] with a non-negative start. *)
Definition substr (s : string) (start : Z) : string := drop (Z.to_nat start) s.

Fixpoint take (n : nat) (s : string) : string :=
  match n, s with
  | O, _ => ""
  | S n', String a rest => String a (take n' rest)
  | S _, EmptyString => ""
  end.

(** The number of bytes that the first code unit of a string takes in its
    UTF-8 text: one for an ASCII character, two or three for any other
    character of the Basic Multilingual Plane.  A character outside that
    plane is a surrogate pair in the engine; the halves of the pair have no
    text of their own, and the count is [0]. *)
Definition first_unit_bytes (s : string) : nat :=
  match s with
  | EmptyString => 0
  | String a _ =>
      let n := nat_of_ascii a in
      if (n <? 128)%nat then 1
      else if (n <? 224)%nat then 2
      else if (n <? 240)%nat then 3
      else 0
  end.

(** [s.charAt(0)], as text.  Where the first code unit is the first half
    of a surrogate pair, it is left with the second half in [slice1] and
    [charAt0] is empty: [toLowerCase] returns a lone surrogate as it is,
    so [s.charAt(0).toLowerCase() + s.slice(1)] is [s] there, in the
    engine as in the model. *)
Definition charAt0 (s : string) : string := take (first_unit_bytes s) s.

(** [s.slice(1)], as text (see [charAt0]). *)
Definition slice1 (s : string) : string := drop (first_unit_bytes s) s.

Definition is_ascii (a : ascii) : bool := (nat_of_ascii a <? 128)%nat.

(** The lower-case mapping of an ASCII character: [A]-[Z] to [a]-[z]. *)
Definition lower_ascii (a : ascii) : ascii :=
  let n := nat_of_ascii a in
  if (65 <=? n)%nat && (n <=? 90)%nat then ascii_of_nat (n + 32) else a.

(** [c.toLowerCase()] for a string [c] of at most one code unit, which is
    what [charAt(0)] returns.  The mapping of a character outside ASCII is
    the engine's, [unicodeLower], from the text of the character to the
    text of its lower case. *)
Definition toLowerCase (unicodeLower : string -> string) (c : string) : string :=
  match c with
  | EmptyString => ""
  | String a rest =>
      if is_ascii a then String (lower_ascii a) rest else unicodeLower c
  end.

End Js.


(** ** Promises, by the value they settle to *)
Module Bluebird.

Inductive settled (A : Type) : Type :=
| Fulfilled (a : A)
| Rejected (e : Js.error).
Arguments Fulfilled {A} a.
Arguments Rejected {A} e.

(** [p.then(k)] where the handler returns a promise. *)
Definition and_then {A B} (p : settled A) (k : A -> settled B) : settled B :=
  match p with
  | Fulfilled a => k a
  | Rejected e => Rejected e
  end.

(** A handler that returns a plain value or throws settles the derived
    promise accordingly. *)
Definition of_completion {A} (c : Js.completion A) : settled A :=
  match c with
  | Js.Normal a => Fulfilled a
  | Js.Throw e => Rejected e
  end.

(** [p.catch(h)] *)
Definition catch {A} (p : settled A) (h : Js.error -> settled A) : settled A :=
  match p with
  | Fulfilled a => Fulfilled a
  | Rejected e => h e
  end.

(** A promise that takes part in a race: the instant it settles at, counted
    from the moment the race is set up, and what it settles to. *)
Record timed (A : Type) : Type := Timed { settles_at : nat; outcome : settled A }.
Arguments Timed {A} settles_at outcome.
Arguments settles_at {A} t.
Arguments outcome {A} t.

(** [p.then(k)] for raced promises: the handler runs when [p] fulfils and
    the derived promise settles when the promise the handler returns does. *)
Definition timed_then {A B} (p : timed A) (k : A -> timed B) : timed B :=
  match outcome p with
  | Fulfilled a =>
      let q := k a in Timed (settles_at p + settles_at q) (outcome q)
  | Rejected e => Timed (settles_at p) (Rejected e)
  end.

Definition earlier {A} (p q : timed A) : Prop := settles_at p <= settles_at q.

#[global] Instance earlier_dec {A} : RelDecision (@earlier A) :=
  fun p q => decide (settles_at p <= settles_at q).

(** The promises in the order in which they settle. *)
Definition settling_order {A} (ps : list (timed A)) : list (timed A) :=
  merge_sort earlier ps.

Fixpoint first_fulfilled {A} (ps : list (timed A)) : option A :=
  match ps with
  | [] => None
  | p :: rest =>
      match outcome p with
      | Fulfilled a => Some a
      | Rejected _ => first_fulfilled rest
      end
  end.

Fixpoint reasons {A} (ps : list (timed A)) : list Js.error :=
  match ps with
  | [] => []
  | p :: rest =>
      match outcome p with
      | Fulfilled _ => reasons rest
      | Rejected e => e :: reasons rest
      end
  end.

(** [Promise.any(promises)] as Bluebird documents it: fulfilled with the
    value of the first promise to fulfil; when none can fulfil any more,
    rejected with an [AggregateError] of the rejection reasons in the order
    in which they were thrown; a [RangeError] on an empty array. *)
Definition any {A} (promises : list (timed A)) : settled A :=
  match promises with
  | [] => Rejected Js.RangeError
  | _ =>
      let settledInOrder := settling_order promises in
      match first_fulfilled settledInOrder with
      | Some a => Fulfilled a
      | None => Rejected (Js.AggregateError (reasons settledInOrder))
      end
  end.

End Bluebird.

Import Bluebird.

(** ** The collaborators *)

(** An SRV record as Node's [dns.resolve(name, 'SRV')] delivers it. *)
Record SrvRecord : Type := {
  srv_name : string;
  srv_port : Z;
  srv_priority : Z;
  srv_weight : Z
}.

(** The options object handed to request-promise. *)
Record RpOptions : Type := {
  uri : option string;
  method : string;
  headers : list (string * string);
  auth : option (Js.val * Js.val);
  body : option string;
  followRedirect : bool;
  simple : bool;
  resolveWithFullResponse : bool
}.

Record HttpResponse : Type := {
  statusCode : Z;
  location : option string;
  responseBody : string
}.

Inductive Reply : Type :=
| NoReply (cause : string)
| Replied (r : HttpResponse).

(** What a request-promise call fulfils with: the body, or the whole
    response under [resolveWithFullResponse]. *)
Inductive RpValue : Type :=
| Body (b : string)
| Full (r : HttpResponse).

(** The options object handed to xml2js. *)
Record ParseOptions : Type := {
  tagNameProcessors : list (string -> string);
  attrNameProcessors : list (string -> string);
  explicitArray : bool;
  mergeAttrs : bool
}.

Record World : Type := {
  (** [dns.resolve(hostname, rrtype)], promisified *)
  dnsResolve : string -> string -> settled (list SrvRecord);
  (** the network as request-promise sees it: how long the exchange takes
      and whether a response arrives *)
  transport : RpOptions -> nat * Reply;
  (** [xml2js.parseString(text, options)], promisified *)
  parseString : string -> ParseOptions -> settled Js.val;
  (** the engine's [String.prototype.toLowerCase] on one character outside
      ASCII: the text of the character to the text of its lower case *)
  unicodeLower : string -> string
}.

Definition EWS_URL_SETTING : string := "ExternalEwsUrl".

(** [removePrefix]: [splitString[1] || splitString[0]], then the first
    character lower-cased.  Index 1 is [undefined] when the name has no
    colon, and the empty string when the first colon is directly followed
    by another colon or by the end of the name; both are falsy.
    [lower] is the engine's mapping of the characters outside ASCII. *)
Definition removePrefix (lower : string -> string) (name : string) : string :=
  let splitString := Js.split ":" name in
  let first := default "" (splitString !! 0%nat) in
  let withoutPrefix :=
    match splitString !! 1%nat with
    | Some second => if String.eqb second "" then first else second
    | None => first
    end in
  Js.toLowerCase lower (Js.charAt0 withoutPrefix) ++ Js.slice1 withoutPrefix.

(** ** The module's functions *)
Section Autodiscover.

Context (W : World).

(** [xmlToJson]: the value the race fulfilled with is handed to the parser,
    which reads it as text. *)
Definition text_of (v : RpValue) : string :=
  match v with
  | Body b => b
  | Full _ => "[object Object]"
  end.

Definition xmlToJson (xmlString : RpValue) : settled Js.val :=
  parseString W (text_of xmlString)
    {| tagNameProcessors := [removePrefix (unicodeLower W)];
       attrNameProcessors := [removePrefix (unicodeLower W)];
       explicitArray := false;
       mergeAttrs := true |}.

(** [queryDns]: the lookup, [.then(response => response.map(e => e.name))],
    [.catch(() => [])]. *)
Definition queryDns (domain : string) : settled (list string) :=
  catch
    (and_then (dnsResolve W ("_autodiscover._tcp." ++ domain) "SRV")
       (fun response => Fulfilled (map srv_name response)))
    (fun _ => Fulfilled []).

Definition is_2xx (code : Z) : bool := (200 <=? code)%Z && (code <? 300)%Z.

(** [rp(options)] as request-promise documents it: rejected when no
    response arrives and, under [simple], on a status outside 2xx;
    otherwise fulfilled with the body, or with the whole response under
    [resolveWithFullResponse]. *)
Definition rp (options : RpOptions) : timed RpValue :=
  match uri options with
  | None => Timed 0 (Rejected (Js.RequestError "options.uri is a required argument"))
  | Some _ =>
      let (t, reply) := transport W options in
      Timed t
        match reply with
        | NoReply cause => Rejected (Js.RequestError cause)
        | Replied r =>
            if simple options && negb (is_2xx (statusCode r))
            then Rejected (Js.StatusCodeError (statusCode r))
            else Fulfilled (if resolveWithFullResponse options then Full r
                            else Body (responseBody r))
        end
  end.

Definition post_options (url : option string) (username password : Js.val)
    (requestBody : string) : RpOptions :=
  {| uri := url;
     method := "POST";
     headers := [("Content-Type", "text/xml; charset=utf-8")];
     auth := Some (username, password);
     body := Some requestBody;
     followRedirect := false;
     simple := true;
     resolveWithFullResponse := false |}.

Definition tryEndpoint (url : option string) (username password : Js.val)
    (requestBody : string) : timed RpValue :=
  rp (post_options url username password requestBody).

Definition setting_node (setting : Js.val) : string :=
  "<a:Setting>" ++ Js.to_string setting ++ "</a:Setting>".

(** The array [wrapSettingsRequest] renders: [[].concat(settings)], with
    the EWS URL setting pushed when [indexOf] does not find it. *)
Definition requested_settings (settings : Js.val) : list Js.val :=
  let settings := Js.concat_into_empty settings in
  if Js.index_of_is_minus_one EWS_URL_SETTING settings
  then settings ++ [Js.Str EWS_URL_SETTING]
  else settings.

Definition wrapSettingsRequest (settings : Js.val) : string :=
  Js.join "" (map setting_node (requested_settings settings)).

Definition dq : string := String "034"%char "".

Definition soap_before_mailbox : string :=
  "<?xml version=" ++ dq ++ "1.0" ++ dq ++ " encoding=" ++ dq ++ "utf-8" ++ dq ++ "?>" ++
  "<soap:Envelope xmlns:a=" ++ dq ++ "http://schemas.microsoft.com/exchange/2010/Autodiscover" ++ dq ++ " " ++
  "xmlns:wsa=" ++ dq ++ "http://www.w3.org/2005/08/addressing" ++ dq ++ " " ++
  "xmlns:xsi=" ++ dq ++ "http://www.w3.org/2001/XMLSchema-instance" ++ dq ++ " " ++
  "xmlns:soap=" ++ dq ++ "http://schemas.xmlsoap.org/soap/envelope/" ++ dq ++ ">" ++
  "  <soap:Header>" ++
  "    <a:RequestedServerVersion>Exchange2010</a:RequestedServerVersion>" ++
  "    <wsa:Action>http://schemas.microsoft.com/exchange/2010/Autodiscover/Autodiscover/GetUserSettings</wsa:Action>" ++
  "  </soap:Header>" ++
  "  <soap:Body>" ++
  "    <a:GetUserSettingsRequestMessage xmlns:a=" ++ dq ++ "http://schemas.microsoft.com/exchange/2010/Autodiscover" ++ dq ++ ">" ++
  "      <a:Request>" ++
  "        <a:Users>" ++
  "          <a:User>" ++
  "            <a:Mailbox>".

Definition soap_after_mailbox : string :=
  "</a:Mailbox>" ++
  "          </a:User>" ++
  "        </a:Users>" ++
  "        <a:RequestedSettings>".

Definition soap_after_settings : string :=
  "</a:RequestedSettings>" ++
  "      </a:Request>" ++
  "    </a:GetUserSettingsRequestMessage>" ++
  "  </soap:Body>" ++
  "</soap:Envelope>".

Definition createAutodiscoverSoap (emailAddress : string) (settings : Js.val) : string :=
  soap_before_mailbox ++ emailAddress ++ soap_after_mailbox ++
  wrapSettingsRequest settings ++ soap_after_settings.

Definition redirect_probe (domain : string) : RpOptions :=
  {| uri := Some ("http://autodiscover." ++ domain ++ "/autodiscover/autodiscover.svc");
     method := "GET";
     headers := [];
     auth := None;
     body := None;
     followRedirect := false;
     simple := false;
     resolveWithFullResponse := true |}.

(** The handler chained on the GET: [response.statusCode !== 302] throws,
    otherwise the POST goes to [response.headers.location]. *)
Definition follow_redirect (username password : Js.val) (requestBody : string)
    (response : RpValue) : timed RpValue :=
  match response with
  | Full r =>
      if (statusCode r =? 302)%Z
      then tryEndpoint (location r) username password requestBody
      else Timed 0 (Rejected Js.PlainError)
  | Body _ => Timed 0 (Rejected Js.PlainError)
  end.

(** The three promises pushed for one domain. *)
Definition attempts_for (username password : Js.val) (requestBody : string)
    (domain : string) : list (timed RpValue) :=
  [ tryEndpoint (Some ("https://" ++ domain ++ "/autodiscover/autodiscover.svc"))
      username password requestBody;
    tryEndpoint (Some ("https://autodiscover." ++ domain ++ "/autodiscover/autodiscover.svc"))
      username password requestBody;
    timed_then (rp (redirect_probe domain))
      (follow_redirect username password requestBody) ].

(** [promises] after the [forEach]. *)
Definition attempts (domains : list string) (username password : Js.val)
    (requestBody : string) : list (timed RpValue) :=
  concat (map (attempts_for username password requestBody) domains).

Definition response_path : list string :=
  ["envelope"; "body"; "getUserSettingsResponseMessage"; "response";
   "userResponses"; "userResponse"; "userSettings"; "userSetting"].

(** The chain of property reads [result.envelope.body. ... .userSetting]. *)
Fixpoint read_path (v : Js.val) (path : list string) : Js.completion Js.val :=
  match path with
  | [] => Js.Normal v
  | k :: rest => Js.bind (Js.get v k) (fun child => read_path child rest)
  end.

(** The reducer: [userSettings[setting.name] = setting.value]. *)
Definition store_setting (userSettings : Js.object) (setting : Js.val)
    : Js.completion Js.object :=
  Js.bind (Js.get setting "name") (fun name =>
  Js.bind (Js.get setting "value") (fun value =>
  Js.Normal (Js.set userSettings (Js.to_string name) value))).

(** [Array.prototype.reduce] with an initial value and a callback that may
    throw. *)
Fixpoint reduce {A B} (callback : B -> A -> Js.completion B) (l : list A) (initial : B)
    : Js.completion B :=
  match l with
  | [] => Js.Normal initial
  | x :: rest => Js.bind (callback initial x) (reduce callback rest)
  end.

(** The last [then] handler of [autodiscoverDomains]. *)
Definition extract_settings (result : Js.val) : Js.completion Js.object :=
  Js.bind (read_path result response_path) (fun userSettings =>
  let userSettings := Js.concat_into_empty userSettings in
  reduce store_setting userSettings (Js.plain ∅)).

Definition autodiscoverDomains (domains : list string) (emailAddress : string)
    (password username settings : Js.val) : settled Js.object :=
  let requestBody := createAutodiscoverSoap emailAddress settings in
  let promises := attempts domains username password requestBody in
  and_then (and_then (any promises) xmlToJson)
    (fun result => of_completion (extract_settings result)).

(** The [params] object; an absent field reads as [undefined].
    [queryDnsFlag] is its [queryDns] field. *)
Record Params : Type := {
  emailAddress : Js.val;
  password : Js.val;
  username : Js.val;
  queryDnsFlag : Js.val;
  settings : Js.val
}.

(** What the exported function resolves with: the settings object, or the
    value stored under the EWS URL setting. *)
Inductive Result : Type :=
| SettingsObject (m : Js.object)
| SettingValue (v : Js.val).

(** A call of the callback: [cb(null, result)] or [cb(errors)]. *)
Inductive CallbackCall : Type :=
| CbResult (r : Result)
| CbError (e : Js.error).

(** The [cb] argument: absent, or a function which, called, returns or
    throws. *)
Definition callback : Type := option (CallbackCall -> option Js.error).

(** No callback, or one that returns from every call. *)
Definition returning (given : bool) : callback :=
  if given then Some (fun _ => None) else None.

Coercion returning : bool >-> callback.

(** [if (cb) { cb(...) }]: the call made, and what it throws. *)
Definition invoke (cb : callback) (call : CallbackCall)
    : list CallbackCall * option Js.error :=
  match cb with
  | Some f => ([call], f call)
  | None => ([], None)
  end.

(** A call of the exported function either throws before a promise exists,
    or returns a promise; [callbackCalls] lists the calls made to [cb], in
    order. *)
Inductive Outcome : Type :=
| Threw (e : Js.error)
| Returned (promise : settled Result) (callbackCalls : list CallbackCall).

(** [var query = params.queryDns || true] *)
Definition query_of (params : Params) : Js.val :=
  Js.or_else (queryDnsFlag params) (Js.Bool true).

(** [emailAddress.substr(emailAddress.indexOf("@") + 1)] *)
Definition smtpDomain_of (emailAddress : string) : string :=
  Js.substr emailAddress (Js.index_of "@" emailAddress + 1).

(** [promise] as the [if (query)] leaves it: the lookup, or
    [Promise.resolve([])]. *)
Definition otherDomains_of (params : Params) (smtpDomain : string) : settled (list string) :=
  if Js.truthy (query_of params) then queryDns smtpDomain else Fulfilled [].

(** [requestedSettings ? settings : settings[EWS_URL_SETTING]] *)
Definition shape_result (requestedSettings : Js.val) (settings : Js.object) : Result :=
  if Js.truthy requestedSettings then SettingsObject settings
  else SettingValue (Js.read settings EWS_URL_SETTING).

(** The handler of the last [then]: the result is shaped, handed to the
    callback, and returned; an exception of the callback rejects the
    promise. *)
Definition deliver (requestedSettings : Js.val) (cb : callback) (settings : Js.object)
    : list CallbackCall * settled Result :=
  let result := shape_result requestedSettings settings in
  let (calls, thrown) := invoke cb (CbResult result) in
  (calls, match thrown with
          | Some e => Rejected e
          | None => Fulfilled result
          end).

(** The handler of the [catch]: the callback is called with the rejection
    reason, which is then thrown again, unless the callback threw. *)
Definition report (cb : callback) (errors : Js.error)
    : list CallbackCall * settled Result :=
  let (calls, thrown) := invoke cb (CbError errors) in
  (calls, Rejected (default errors thrown)).

(** The exported function, [module.exports = function (params, cb)]. *)
Definition module_exports (params : Params) (cb : callback) : Outcome :=
  let password := password params in
  let username := Js.or_else (username params) (emailAddress params) in
  let requestedSettings := settings params in
  match emailAddress params with
  | Js.Str emailAddress =>
      let smtpDomain := smtpDomain_of emailAddress in
      let domains := [smtpDomain] in
      let promise := otherDomains_of params smtpDomain in
      let promise :=
        and_then promise (fun otherDomains =>
          let domains := (domains ++ otherDomains)%list in
          autodiscoverDomains domains emailAddress password username requestedSettings) in
      let (delivered, promise) :=
        match promise with
        | Fulfilled settings => deliver requestedSettings cb settings
        | Rejected errors => ([], Rejected errors)
        end in
      let (reported, promise) :=
        match promise with
        | Fulfilled result => ([], Fulfilled result)
        | Rejected errors => report cb errors
        end in
      Returned promise (delivered ++ reported)
  | _ => Threw Js.TypeError
  end.

End Autodiscover.

(** * Notions used in the statements *)

(** ** Names *)

(** The first character lower-cased, the rest untouched. *)
Definition lower_first (lower : string -> string) (s : string) : string :=
  Js.toLowerCase lower (Js.charAt0 s) ++ Js.slice1 s.

(** The UTF-8 text of one character of the Basic Multilingual Plane
    outside ASCII: two or three bytes, as the first byte tells. *)
Definition wide_char (c : string) : Prop :=
  match c with
  | String a (String _ EmptyString) => 128 <= nat_of_ascii a < 224
  | String a (String _ (String _ EmptyString)) => 224 <= nat_of_ascii a < 240
  | _ => False
  end.

Fixpoint has_char (c : ascii) (s : string) : bool :=
  match s with
  | EmptyString => false
  | String a rest => Ascii.eqb a c || has_char c rest
  end.

(** A segment ends at the end of the name or at the next colon. *)
Definition segment_ends (rest : string) : Prop :=
  rest = "" \/ exists more, rest = String ":" more.

(** The normalizer as the specification words it: with a colon in the
    name, the segment after the colon, else the name itself; then the
    first character lower-cased. *)
Definition removePrefix_as_specified (lower : string -> string) (name : string) : string :=
  lower_first lower
    (if has_char ":" name
     then default "" (Js.split ":" name !! 1%nat)
     else name).

(** ** Rendered settings *)

Fixpoint count_setting (s : string) (l : list Js.val) : nat :=
  match l with
  | [] => 0
  | v :: rest => (if Js.is_str s v then 1 else 0) + count_setting s rest
  end.

Fixpoint count_name (s : string) (names : list string) : nat :=
  match names with
  | [] => 0
  | n :: rest => (if String.eqb n s then 1 else 0) + count_name s rest
  end.

Fixpoint starts_with (pattern text : string) : bool :=
  match pattern, text with
  | EmptyString, _ => true
  | String a p, String b t => Ascii.eqb b a && starts_with p t
  | String _ _, EmptyString => false
  end.

(** The number of positions of [text] at which [pattern] starts. *)
Fixpoint occurrences (pattern text : string) : nat :=
  match text with
  | EmptyString => 0
  | String _ rest =>
      (if starts_with pattern text then 1 else 0) + occurrences pattern rest
  end.

Definition ews_node : string := "<a:Setting>ExternalEwsUrl</a:Setting>".

Definition name_node (name : string) : string :=
  "<a:Setting>" ++ name ++ "</a:Setting>".

(** The names an array of strings is rendered as. *)
Definition rendered_names (names : list string) : list string :=
  if (count_name EWS_URL_SETTING names =? 0)%nat
  then names ++ [EWS_URL_SETTING]
  else names.

(** ** The race *)

Definition is_rejected {A} (p : timed A) : bool :=
  match outcome p with
  | Rejected _ => true
  | Fulfilled _ => false
  end.

(** ** Normalized trees *)

(** The node a path of element names leads to in a normalized tree, when
    every node on the path is there. *)
Fixpoint find_node (v : Js.val) (path : list string) : option Js.val :=
  match path with
  | [] => Some v
  | k :: rest =>
      match v with
      | Js.Obj fields =>
          match Js.assoc k fields with
          | Some Js.Undefined | None => None
          | Some child => find_node child rest
          end
      | _ => None
      end
  end.

(** A field of an entry, [undefined] when the entry does not have it. *)
Definition field (entry : Js.val) (k : string) : Js.val :=
  match entry with
  | Js.Obj fields => default Js.Undefined (Js.assoc k fields)
  | _ => Js.Undefined
  end.

Definition entry_key (entry : Js.val) : string := Js.to_string (field entry "name").
Definition entry_value (entry : Js.val) : Js.val := field entry "value".

(** The value of the last entry stored under a key. *)
Definition last_value (k : string) (entries : list Js.val) : option Js.val :=
  entry_value <$> last (filter (fun entry => entry_key entry = k) entries).

(** ** Calls *)

(** The targets of the SRV records of a domain, none when the lookup
    fails. *)
Definition srv_targets (W : World) (domain : string) : list string :=
  match dnsResolve W ("_autodiscover._tcp." ++ domain) "SRV" with
  | Fulfilled response => map srv_name response
  | Rejected _ => []
  end.

(** The candidate list: [domains] as it reaches [autodiscoverDomains]. *)
Definition candidate_domains (W : World) (params : Params) (smtpDomain : string)
    : settled (list string) :=
  and_then (otherDomains_of W params smtpDomain)
    (fun otherDomains => Fulfilled ([smtpDomain] ++ otherDomains)%list).

(** The promises raced over [domains] for a request whose email address is
    the string [e]. *)
Definition attempts_of (W : World) (params : Params) (e : string)
    (domains : list string) : list (timed RpValue) :=
  attempts W domains
    (Js.or_else (username params) (Js.Str e)) (password params)
    (createAutodiscoverSoap e (settings params)).

(** The calls [cb] receives for a promise settled to [p]. *)
Definition notify (cb : bool) (p : settled Result) : list CallbackCall :=
  if cb
  then [match p with Fulfilled r => CbResult r | Rejected e => CbError e end]
  else [].

(** ** Concrete worlds *)
Module Scenario.

Definition ews_url : string := "https://outlook.microsoft.com/ews/exchange.asmx".

Definition response_xml : string := "<s:Envelope>...</s:Envelope>".

(** A parsed document before the name processors are applied. *)
Definition user_setting (name value : string) : Js.val :=
  Js.Obj [("i:type", Js.Str "StringSetting");
          ("Name", Js.Str name); ("Value", Js.Str value)].

Definition user_response (content : list (string * Js.val)) : Js.val :=
  Js.Obj [("s:Envelope", Js.Obj [("s:Body", Js.Obj
    [("GetUserSettingsResponseMessage", Js.Obj [("Response", Js.Obj
      [("ErrorCode", Js.Str "NoError");
       ("UserResponses", Js.Obj [("UserResponse", Js.Obj content)])])])])])].

Definition settings_document (userSetting : Js.val) : Js.val :=
  user_response
    [("ErrorCode", Js.Str "NoError");
     ("UserSettings", Js.Obj [("UserSetting", userSetting)])].

(** The answer to a mailbox that lives elsewhere: no settings at all. *)
Definition redirect_document : Js.val :=
  user_response
    [("ErrorCode", Js.Str "RedirectAddress");
     ("RedirectTarget", Js.Str "foo@elsewhere.example");
     ("UserSettings", Js.Str "")].

(** The case mapping of the concrete worlds: the engine's on the
    characters listed; the documents of these worlds hold ASCII names
    only. *)
Definition lowerCase (c : string) : string :=
  if String.eqb c "É" then "é"
  else if String.eqb c "Ω" then "ω"
  else c.

Definition apply_processors (processors : list (string -> string)) (name : string) : string :=
  fold_left (fun n process => process n) processors name.

Fixpoint rename (process : string -> string) (v : Js.val) : Js.val :=
  match v with
  | Js.Obj fields =>
      Js.Obj ((fix each (l : list (string * Js.val)) : list (string * Js.val) :=
                 match l with
                 | [] => []
                 | (k, child) :: rest => (process k, rename process child) :: each rest
                 end) fields)
  | Js.Arr elems => Js.Arr (map (rename process) elems)
  | _ => v
  end.

Definition option_string_eqb (a : option string) (b : string) : bool :=
  match a with
  | Some s => String.eqb s b
  | None => false
  end.

(** A world in which the resolver answers [dns], only a POST to
    [answering] gets a response, whose body parses to [document]. *)
Definition world (dns : settled (list SrvRecord)) (answering : string)
    (document : Js.val) : World :=
  {| dnsResolve := fun _ _ => dns;
     transport := fun options =>
       if String.eqb (method options) "POST" && option_string_eqb (uri options) answering
       then (5, Replied {| statusCode := 200; location := None;
                           responseBody := response_xml |})
       else (1, NoReply "ECONNREFUSED");
     parseString := fun text options =>
       if String.eqb text response_xml
       then Fulfilled (rename (apply_processors (tagNameProcessors options)) document)
       else Rejected (Js.XmlError "Non-whitespace before first tag.");
     unicodeLower := lowerCase |}.

(** A world in which only the plain-HTTP probe of [autodiscover.<domain>]
    is answered, with [status] and a [Location] header naming [target];
    a POST to [target] gets the response whose body parses to
    [document]. *)
Definition world_with_redirect (domain : string) (status : Z) (target : string)
    (document : Js.val) : World :=
  {| dnsResolve := fun _ _ => Rejected (Js.DnsError "ENOTFOUND");
     transport := fun options =>
       if String.eqb (method options) "GET" &&
          option_string_eqb (uri options)
            ("http://autodiscover." ++ domain ++ "/autodiscover/autodiscover.svc")
       then (2, Replied {| statusCode := status; location := Some target;
                           responseBody := "" |})
       else if String.eqb (method options) "POST" && option_string_eqb (uri options) target
       then (3, Replied {| statusCode := 200; location := None;
                           responseBody := response_xml |})
       else (1, NoReply "ECONNREFUSED");
     parseString := fun text options =>
       if String.eqb text response_xml
       then Fulfilled (rename (apply_processors (tagNameProcessors options)) document)
       else Rejected (Js.XmlError "Non-whitespace before first tag.");
     unicodeLower := lowerCase |}.

Definition no_srv : settled (list SrvRecord) := Rejected (Js.DnsError "ENOTFOUND").

Definition one_srv : settled (list SrvRecord) :=
  Fulfilled [{| srv_name := "mail.hoster.example"; srv_port := 443;
                srv_priority := 0; srv_weight := 0 |}].

Definition params_for (emailAddress : string) : Params :=
  {| emailAddress := Js.Str emailAddress;
     password := Js.Str "pass";
     username := Js.Undefined;
     queryDnsFlag := Js.Undefined;
     settings := Js.Undefined |}.

End Scenario.

(** The requests and worlds the statements below are evaluated at. *)

Definition world_of_scenario_1 : World :=
  Scenario.world Scenario.no_srv
    "https://autodiscover.bar.onmicrosoft.com/autodiscover/autodiscover.svc"
    (Scenario.settings_document (Scenario.user_setting "ExternalEwsUrl" Scenario.ews_url)).

Definition request_with_empty_settings : Params :=
  {| emailAddress := Js.Str "foo@bar.onmicrosoft.com";
     password := Js.Str "pass";
     username := Js.Undefined;
     queryDnsFlag := Js.Undefined;
     settings := Js.Arr [] |}.

Definition request_without_at_or_password : Params :=
  {| emailAddress := Js.Str "foobar";
     password := Js.Undefined;
     username := Js.Undefined;
     queryDnsFlag := Js.Undefined;
     settings := Js.Undefined |}.

Definition world_answering_foobar : World :=
  Scenario.world Scenario.no_srv "https://foobar/autodiscover/autodiscover.svc"
    (Scenario.settings_document (Scenario.user_setting "ExternalEwsUrl" Scenario.ews_url)).

Definition request_with_queryDns_false : Params :=
  {| emailAddress := Js.Str "foo@bar.com";
     password := Js.Str "pass";
     username := Js.Undefined;
     queryDnsFlag := Js.Bool false;
     settings := Js.Undefined |}.

(** Only the host learned from the SRV record answers. *)
Definition world_answering_srv_host : World :=
  Scenario.world Scenario.one_srv
    "https://mail.hoster.example/autodiscover/autodiscover.svc"
    (Scenario.settings_document (Scenario.user_setting "ExternalEwsUrl" Scenario.ews_url)).

(** No endpoint answers, and the resolver knows no SRV record. *)
Definition world_unreachable : World :=
  Scenario.world Scenario.no_srv "https://nowhere.example/" Scenario.redirect_document.

(** The endpoint answers with a redirect to another address. *)
Definition world_redirecting : World :=
  Scenario.world Scenario.no_srv
    "https://autodiscover.bar.com/autodiscover/autodiscover.svc"
    Scenario.redirect_document.

(** * Notions used in the further properties *)

Definition is_fulfilled {A} (p : timed A) : bool := negb (is_rejected p).

(** [params] with its [queryDns] field replaced. *)
Definition with_queryDns (params : Params) (flag : Js.val) : Params :=
  {| emailAddress := emailAddress params;
     password := password params;
     username := username params;
     queryDnsFlag := flag;
     settings := settings params |}.

(** [params] with its [username] field replaced. *)
Definition with_username (params : Params) (user : Js.val) : Params :=
  {| emailAddress := emailAddress params;
     password := password params;
     username := user;
     queryDnsFlag := queryDnsFlag params;
     settings := settings params |}.

(** What the handlers chained after the race make of a winning body. *)
Definition settings_of_body (W : World) (winner : RpValue) : settled Js.object :=
  and_then (xmlToJson W winner) (fun result => of_completion (extract_settings result)).

(** The entries the extractor folds: [[].concat(userSetting)]. *)
Definition entries_of (node : Js.val) : list Js.val :=
  match node with
  | Js.Arr elems => elems
  | _ => [node]
  end.

(** A resolver that knows two SRV records, the second naming the SMTP
    domain itself. *)
Definition two_srv : settled (list SrvRecord) :=
  Fulfilled [{| srv_name := "mail.hoster.example"; srv_port := 443;
                srv_priority := 0; srv_weight := 0 |};
             {| srv_name := "bar.com"; srv_port := 443;
                srv_priority := 10; srv_weight := 0 |}].

Definition world_with_two_srv : World :=
  Scenario.world two_srv "https://mail.hoster.example/autodiscover/autodiscover.svc"
    (Scenario.settings_document (Scenario.user_setting "ExternalEwsUrl" Scenario.ews_url)).

(** The endpoint answers, but not with XML. *)
Definition world_answering_html : World :=
  {| dnsResolve := fun _ _ => Scenario.no_srv;
     transport := fun options =>
       if String.eqb (method options) "POST"
       then (4, Replied {| statusCode := 200; location := None;
                           responseBody := "<html>" |})
       else (1, NoReply "ECONNREFUSED");
     parseString := fun _ _ => Rejected (Js.XmlError "Unclosed root tag");
     unicodeLower := Scenario.lowerCase |}.

(** The endpoint answers with a version entry only. *)
Definition world_without_ews_url : World :=
  Scenario.world Scenario.no_srv "https://bar.com/autodiscover/autodiscover.svc"
    (Scenario.settings_document
       (Scenario.user_setting "ExternalEwsVersion" "15.00.0000.000")).

(** How the calls made to a callback [f] and the promise returned go
    together: one call with the result, from which [f] returns, and the
    promise fulfilled with it; or one call with the rejection reason; or a
    call with the result, on which [f] throws, followed by a call with
    what it threw.  In the last two cases the promise is rejected, with
    what the last call throws when it throws. *)
Definition callback_protocol (f : CallbackCall -> option Js.error)
    (promise : settled Result) (calls : list CallbackCall) : Prop :=
  (exists result,
      calls = [CbResult result] /\ f (CbResult result) = None /\
      promise = Fulfilled result) \/
  (exists reason,
      calls = [CbError reason] /\
      promise = Rejected (default reason (f (CbError reason)))) \/
  (exists result thrown,
      calls = [CbResult result; CbError thrown] /\
      f (CbResult result) = Some thrown /\
      promise = Rejected (default thrown (f (CbError thrown)))).

(** A response whose only entry is named [__proto__]. *)
Definition proto_entry : Js.val := Scenario.user_setting "__proto__" "x".

Definition proto_document : Js.val :=
  Scenario.rename (removePrefix Scenario.lowerCase)
    (Scenario.settings_document proto_entry).

(** A callback that throws whenever it is called. *)
Definition throwing_callback : callback := Some (fun _ => Some Js.PlainError).

Definition request_without_emailAddress : Params :=
  {| emailAddress := Js.Undefined;
     password := Js.Str "pass";
     username := Js.Str "ad\foobar77";
     queryDnsFlag := Js.Undefined;
     settings := Js.Undefined |}.

(** * Properties *)

(** ** Strings *)
Section Strings.

Lemma append_cons a (s t : string) : String a s ++ t = String a (s ++ t).
Proof. reflexivity. Qed.

Lemma append_empty_l (s : string) : "" ++ s = s.
Proof. reflexivity. Qed.

Lemma append_empty_r (s : string) : s ++ "" = s.
Proof. induction s as [|a s IH]; [done|]. by rewrite append_cons, IH. Qed.

Lemma append_assoc (a b c : string) : (a ++ b) ++ c = a ++ (b ++ c).
Proof. induction a as [|x a IH]; [done|]. by rewrite !append_cons, IH. Qed.

Lemma split_without_separator c s :
  has_char c s = false -> Js.split c s = [s].
Proof.
  induction s as [|a s IH]; simpl; [done|].
  destruct (Ascii.eqb a c); simpl; [done|].
  intros H. by rewrite IH.
Qed.

Lemma split_at_separator c p r :
  has_char c p = false -> Js.split c (p ++ String c r) = p :: Js.split c r.
Proof.
  induction p as [|a p IH]; simpl.
  - intros _. by rewrite Ascii.eqb_refl.
  - destruct (Ascii.eqb a c); simpl; [done|].
    intros H. by rewrite IH.
Qed.

Lemma split_second_segment prefix segment rest :
  has_char ":" prefix = false -> has_char ":" segment = false ->
  segment_ends rest ->
  exists more, Js.split ":" (prefix ++ String ":" (segment ++ rest))
               = prefix :: segment :: more.
Proof.
  intros Hp Hs Hrest. rewrite split_at_separator by done.
  destruct Hrest as [->|[more ->]].
  - rewrite append_empty_r, split_without_separator by done. by exists [].
  - rewrite split_at_separator by done. eauto.
Qed.

Lemma index_of_absent c s : has_char c s = false -> Js.index_of c s = (-1)%Z.
Proof.
  induction s as [|a s IH]; simpl; [done|].
  destruct (Ascii.eqb a c); simpl; [done|]. intros H. by rewrite IH.
Qed.

Lemma smtpDomain_without_at e : has_char "@" e = false -> smtpDomain_of e = e.
Proof. intros H. unfold smtpDomain_of. by rewrite index_of_absent. Qed.

Lemma take_drop n (s : string) : Js.take n s ++ Js.drop n s = s.
Proof.
  revert s. induction n as [|n IH]; intros s; [done|].
  destruct s as [|a s]; [done|]. simpl Js.take. simpl Js.drop.
  by rewrite append_cons, IH.
Qed.

Lemma join_empty_cons (s : string) (l : list string) :
  Js.join "" (s :: l) = s ++ Js.join "" l.
Proof. destruct l; [|done]. simpl. by rewrite append_empty_r. Qed.

End Strings.

(** ** The XML normalizer's name processor *)

Example removePrefix_prefixed lower : removePrefix lower "a:Foo" = "foo".
Proof. reflexivity. Qed.

Example removePrefix_unprefixed lower : removePrefix lower "Bar" = "bar".
Proof. reflexivity. Qed.

Example removePrefix_two_colons lower : removePrefix lower "a:b:c" = "b".
Proof. reflexivity. Qed.

Example removePrefix_accented lower : removePrefix lower "a:Éa" = lower "É" ++ "a".
Proof. reflexivity. Qed.

Section LowerFirst.

Context (lower : string -> string).

Lemma lower_first_empty : lower_first lower "" = "".
Proof. reflexivity. Qed.

Lemma lower_first_ascii a rest :
  Js.is_ascii a = true ->
  lower_first lower (String a rest) = String (Js.lower_ascii a) rest.
Proof.
  intros H. unfold lower_first, Js.charAt0, Js.slice1, Js.first_unit_bytes.
  unfold Js.is_ascii in H. rewrite H. simpl Js.take. simpl Js.drop.
  unfold Js.toLowerCase, Js.is_ascii. rewrite H.
  by rewrite append_cons, append_empty_l.
Qed.

Lemma lower_first_wide c rest :
  wide_char c -> lower_first lower (c ++ rest) = lower c ++ rest.
Proof.
  destruct c as [|a [|b [|d [|? ?]]]]; simpl; try done; intros [Hlo Hhi].
  - assert (E1 : (nat_of_ascii a <? 128)%nat = false) by (apply Nat.ltb_ge; lia).
    assert (E2 : (nat_of_ascii a <? 224)%nat = true) by (apply Nat.ltb_lt; lia).
    unfold lower_first, Js.charAt0, Js.slice1.
    rewrite !append_cons, append_empty_l. unfold Js.first_unit_bytes.
    rewrite E1, E2. simpl Js.take. simpl Js.drop.
    unfold Js.toLowerCase, Js.is_ascii. by rewrite E1.
  - assert (E1 : (nat_of_ascii a <? 128)%nat = false) by (apply Nat.ltb_ge; lia).
    assert (E2 : (nat_of_ascii a <? 224)%nat = false) by (apply Nat.ltb_ge; lia).
    assert (E3 : (nat_of_ascii a <? 240)%nat = true) by (apply Nat.ltb_lt; lia).
    unfold lower_first, Js.charAt0, Js.slice1.
    rewrite !append_cons, append_empty_l. unfold Js.first_unit_bytes.
    rewrite E1, E2, E3. simpl Js.take. simpl Js.drop.
    unfold Js.toLowerCase, Js.is_ascii. by rewrite E1.
Qed.

Lemma lower_first_surrogate a rest :
  240 <= nat_of_ascii a -> lower_first lower (String a rest) = String a rest.
Proof.
  intros H.
  assert (E1 : (nat_of_ascii a <? 128)%nat = false) by (apply Nat.ltb_ge; lia).
  assert (E2 : (nat_of_ascii a <? 224)%nat = false) by (apply Nat.ltb_ge; lia).
  assert (E3 : (nat_of_ascii a <? 240)%nat = false) by (apply Nat.ltb_ge; lia).
  unfold lower_first, Js.charAt0, Js.slice1, Js.first_unit_bytes.
  by rewrite E1, E2, E3.
Qed.

End LowerFirst.

(** C8, as the code has it: a name without a colon is used as it is; in
    [prefix:segment...] the segment between the first colon and the next
    one (or the end of the name) is retained when it is not empty, and the
    prefix is retained when it is empty.  The first character of what is
    retained is then lower-cased and the rest left as it is: an ASCII
    letter by the ASCII mapping, any other character of the Basic
    Multilingual Plane by the engine's mapping [lower]; the empty string
    and a first character outside that plane (whose first code unit is a
    lone surrogate) are left unchanged. *)
Theorem removePrefix_retains_segment (lower : string -> string) :
  (forall name, has_char ":" name = false ->
                removePrefix lower name = lower_first lower name) /\
  (forall prefix segment rest,
      has_char ":" prefix = false -> has_char ":" segment = false ->
      segment_ends rest ->
      removePrefix lower (prefix ++ String ":" (segment ++ rest))
      = lower_first lower (if String.eqb segment "" then prefix else segment)) /\
  lower_first lower "" = "" /\
  (forall a rest, Js.is_ascii a = true ->
      lower_first lower (String a rest)
      = String (if (65 <=? nat_of_ascii a)%nat && (nat_of_ascii a <=? 90)%nat
                then ascii_of_nat (nat_of_ascii a + 32) else a) rest) /\
  (forall c rest, wide_char c -> lower_first lower (c ++ rest) = lower c ++ rest) /\
  (forall a rest, 240 <= nat_of_ascii a ->
      lower_first lower (String a rest) = String a rest).
Proof.
  split; [|split; [|split; [|split; [|split]]]].
  - intros name H. unfold removePrefix. by rewrite split_without_separator.
  - intros prefix segment rest Hp Hs Hrest.
    destruct (split_second_segment prefix segment rest Hp Hs Hrest) as [more E].
    unfold removePrefix. rewrite E. simpl. by destruct (String.eqb segment "").
  - apply lower_first_empty.
  - intros a rest H. by rewrite lower_first_ascii.
  - apply lower_first_wide.
  - apply lower_first_surrogate.
Qed.

Lemma removePrefix_retains_segment_witness :
  removePrefix Scenario.lowerCase "Bar" = "bar" /\
  removePrefix Scenario.lowerCase "a:Foo" = "foo" /\
  removePrefix Scenario.lowerCase "a:Foo:x" = "foo" /\
  removePrefix Scenario.lowerCase "a:" = "a" /\
  lower_first Scenario.lowerCase "Envelope" = "envelope" /\
  lower_first Scenario.lowerCase "Éa" = "éa" /\
  lower_first Scenario.lowerCase "𐐀a" = "𐐀a".
Proof.
  destruct (removePrefix_retains_segment Scenario.lowerCase)
    as (H1 & H2 & _ & H4 & H5 & H6).
  split; [|split; [|split; [|split; [|split; [|split]]]]].
  - exact (H1 "Bar" eq_refl).
  - exact (H2 "a" "Foo" "" eq_refl eq_refl (or_introl eq_refl)).
  - exact (H2 "a" "Foo" ":x" eq_refl eq_refl (or_intror (ex_intro _ "x" eq_refl))).
  - exact (H2 "a" "" "" eq_refl eq_refl (or_introl eq_refl)).
  - exact (H4 "E"%char "nvelope" eq_refl).
  - apply (H5 "É" "a"). unfold wide_char. change (nat_of_ascii "195") with 195. lia.
  - apply (H6 "240"%char). change (nat_of_ascii "240") with 240. lia.
Defined.

(** C8 as stated fails on a name whose first colon is followed by nothing:
    the name has a colon, the segment after it is empty, and the code keeps
    the prefix instead. *)
Lemma removePrefix_trailing_colon :
  has_char ":" "a:" = true /\
  Js.substr "a:" (Js.index_of ":" "a:" + 1) = "" /\
  removePrefix_as_specified Scenario.lowerCase "a:" = "" /\
  removePrefix Scenario.lowerCase "a:" = "a" /\
  removePrefix Scenario.lowerCase "a:" <> removePrefix_as_specified Scenario.lowerCase "a:".
Proof. repeat split; discriminate. Qed.

(** ** The SOAP request builder *)
Section RequestedSettings.

Lemma count_setting_names s names :
  count_setting s (Js.Str <$> names) = count_name s names.
Proof. induction names as [|n names IH]; csimpl; [done|]. by rewrite IH. Qed.

Lemma count_name_app s l1 l2 :
  count_name s (l1 ++ l2) = count_name s l1 + count_name s l2.
Proof. induction l1 as [|n l1 IH]; simpl; [done|]. rewrite IH. lia. Qed.

Lemma existsb_is_str s names :
  existsb (Js.is_str s) (Js.Str <$> names) = negb (count_name s names =? 0)%nat.
Proof.
  induction names as [|n names IH]; csimpl; [done|].
  rewrite IH. by destruct (String.eqb n s).
Qed.

Lemma requested_settings_names names :
  requested_settings (Js.Arr (Js.Str <$> names)) = Js.Str <$> rendered_names names.
Proof.
  unfold requested_settings, rendered_names, Js.index_of_is_minus_one. simpl.
  rewrite existsb_is_str, negb_involutive.
  destruct (count_name EWS_URL_SETTING names =? 0)%nat; [|done].
  by rewrite fmap_app.
Qed.

Lemma count_rendered_names names :
  count_name EWS_URL_SETTING (rendered_names names)
  = Nat.max 1 (count_name EWS_URL_SETTING names).
Proof.
  unfold rendered_names.
  destruct (Nat.eqb_spec (count_name EWS_URL_SETTING names) 0) as [E|NE].
  - rewrite count_name_app, E. reflexivity.
  - lia.
Qed.

Lemma wrapSettingsRequest_rendered names :
  wrapSettingsRequest (Js.Arr (Js.Str <$> names))
  = Js.join "" (name_node <$> rendered_names names).
Proof.
  unfold wrapSettingsRequest. rewrite requested_settings_names. f_equal.
  rewrite <- list_fmap_compose. reflexivity.
Qed.

(** *** Where the EWS URL element can start in the rendered text *)

Lemma occurrences_skip u T :
  has_char "<" u = false -> occurrences ews_node (u ++ T) = occurrences ews_node T.
Proof.
  induction u as [|a u IH]; [done|]. cbn [has_char].
  destruct (Ascii.eqb a "<") eqn:E; [done|]. cbn [orb]. intros H.
  rewrite append_cons. cbn [occurrences]. rewrite (IH H).
  unfold ews_node at 1. cbn [starts_with]. rewrite E. reflexivity.
Qed.

Lemma starts_with_up_to_tag a n x y :
  has_char "<" a = false -> has_char "<" n = false ->
  starts_with (a ++ String "<" x) (n ++ String "<" y)
  = String.eqb n a && starts_with x y.
Proof.
  revert n. induction a as [|c a IH]; intros n; cbn [has_char].
  - intros _. destruct n as [|b n]; [done|]. cbn [has_char].
    destruct (Ascii.eqb b "<") eqn:E; [done|]. intros _.
    rewrite append_cons, append_empty_l. cbn [starts_with String.eqb]. by rewrite E.
  - destruct (Ascii.eqb c "<") eqn:Ec; [done|]. cbn [orb]. intros Ha.
    destruct n as [|b n]; cbn [has_char].
    + intros _. rewrite append_cons, append_empty_l. cbn [starts_with String.eqb].
      rewrite Ascii.eqb_sym, Ec. done.
    + destruct (Ascii.eqb b "<") eqn:Eb; [done|]. cbn [orb]. intros Hn.
      rewrite !append_cons. cbn [starts_with String.eqb]. rewrite (IH n Ha Hn).
      by rewrite andb_assoc.
Qed.

Lemma starts_with_name_node n T :
  has_char "<" n = false ->
  starts_with ews_node (name_node n ++ T) = String.eqb n EWS_URL_SETTING.
Proof.
  intros Hn. unfold name_node. rewrite !append_assoc.
  change ews_node with ("<a:Setting>" ++ "ExternalEwsUrl" ++ String "<" "/a:Setting>").
  change ("</a:Setting>" ++ T) with (String "<" ("/a:Setting>" ++ T)).
  assert (Hskip : forall p q, starts_with ("<a:Setting>" ++ p) ("<a:Setting>" ++ q)
                              = starts_with p q) by reflexivity.
  rewrite Hskip, starts_with_up_to_tag by done.
  change (starts_with "/a:Setting>" ("/a:Setting>" ++ T)) with true.
  apply andb_true_r.
Qed.

Lemma occurrences_name_node n T :
  has_char "<" n = false ->
  occurrences ews_node (name_node n ++ T)
  = (if String.eqb n EWS_URL_SETTING then 1 else 0) + occurrences ews_node T.
Proof.
  intros Hn.
  assert (Hrest : occurrences ews_node (name_node n ++ T)
                  = (if starts_with ews_node (name_node n ++ T) then 1 else 0)
                    + occurrences ews_node T).
  { unfold name_node. rewrite !append_assoc.
    change ("<a:Setting>" ++ n ++ "</a:Setting>" ++ T)
      with (String "<" ("a:Setting>" ++ n ++ String "<" ("/a:Setting>" ++ T))).
    cbn [occurrences]. rewrite (occurrences_skip "a:Setting>") by done.
    rewrite (occurrences_skip n) by done. cbn [occurrences].
    rewrite (occurrences_skip "/a:Setting>") by done.
    change (starts_with ews_node (String "<" ("/a:Setting>" ++ T))) with false.
    reflexivity. }
  by rewrite Hrest, starts_with_name_node.
Qed.

Lemma occurrences_rendered (names : list string) :
  Forall (fun n => has_char "<" n = false) names ->
  occurrences ews_node (Js.join "" (name_node <$> names))
  = count_name EWS_URL_SETTING names.
Proof.
  induction 1 as [|n names Hn _ IH]; [done|].
  rewrite fmap_cons, join_empty_cons, occurrences_name_node, IH by done.
  reflexivity.
Qed.

Lemma rendered_names_without_tag names :
  Forall (fun n => has_char "<" n = false) names ->
  Forall (fun n => has_char "<" n = false) (rendered_names names).
Proof.
  intros H. unfold rendered_names.
  destruct (count_name EWS_URL_SETTING names =? 0)%nat; [|done].
  apply Forall_app. split; [done|]. by repeat constructor.
Qed.

End RequestedSettings.

(** C3, as the code has it: an array of names is rendered as one
    [<a:Setting>] element per name in the supplied order, followed by one
    for ExternalEwsUrl when the array does not contain that name.  The
    rendering therefore holds the ExternalEwsUrl element once when the name
    was requested at most once, and as many times as it was requested
    otherwise; for names free of [<] this is also the number of places at
    which that element starts in the rendered text. *)
Theorem wrapSettingsRequest_names (names : list string) :
  let settings := Js.Arr (Js.Str <$> names) in
  let requests := count_name EWS_URL_SETTING names in
  requested_settings settings
    = Js.Str <$> (if (requests =? 0)%nat then (names ++ [EWS_URL_SETTING])%list else names) /\
  count_setting EWS_URL_SETTING (requested_settings settings) = Nat.max 1 requests /\
  wrapSettingsRequest settings
    = Js.join "" (name_node <$>
        (if (requests =? 0)%nat then (names ++ [EWS_URL_SETTING])%list else names)) /\
  (Forall (fun n => has_char "<" n = false) names ->
   occurrences ews_node (wrapSettingsRequest settings) = Nat.max 1 requests).
Proof.
  intros settings requests. subst settings requests.
  split; [apply requested_settings_names|]. split; [|split].
  - rewrite requested_settings_names, count_setting_names.
    apply count_rendered_names.
  - apply wrapSettingsRequest_rendered.
  - intros H. rewrite wrapSettingsRequest_rendered.
    rewrite occurrences_rendered by (by apply rendered_names_without_tag).
    apply count_rendered_names.
Qed.

Lemma wrapSettingsRequest_names_witness :
  occurrences ews_node
    (wrapSettingsRequest (Js.Arr [Js.Str "EwsSupportedSchemas"; Js.Str "ExternalEwsVersion"]))
  = 1 /\
  occurrences ews_node
    (wrapSettingsRequest (Js.Arr [Js.Str "ExternalEwsUrl"; Js.Str "ExternalEwsVersion"]))
  = 1.
Proof.
  split.
  - refine (proj2 (proj2 (proj2
      (wrapSettingsRequest_names ["EwsSupportedSchemas"; "ExternalEwsVersion"]))) _).
    repeat constructor.
  - refine (proj2 (proj2 (proj2
      (wrapSettingsRequest_names ["ExternalEwsUrl"; "ExternalEwsVersion"]))) _).
    repeat constructor.
Defined.

(** C3 as stated fails on a request that names ExternalEwsUrl twice: both
    are rendered, in the list and in the request body. *)
Lemma wrapSettingsRequest_duplicate_request :
  let settings := Js.Arr [Js.Str "ExternalEwsUrl"; Js.Str "ExternalEwsUrl"] in
  count_setting EWS_URL_SETTING (requested_settings settings) = 2 /\
  wrapSettingsRequest settings
    = "<a:Setting>ExternalEwsUrl</a:Setting><a:Setting>ExternalEwsUrl</a:Setting>" /\
  occurrences ews_node (createAutodiscoverSoap "foo@bar.com" settings) = 2 /\
  occurrences ews_node (createAutodiscoverSoap "foo@bar.com" settings) <> 1.
Proof. vm_compute. repeat split; discriminate. Qed.

(** C10: with [settings] omitted, [[].concat(undefined)] is the one-element
    array holding [undefined]; the EWS URL setting is pushed after it, and
    the template literal prints the first element as the text
    [undefined]. *)
Theorem wrapSettingsRequest_omitted (emailAddress : string) :
  Js.concat_into_empty Js.Undefined = [Js.Undefined] /\
  requested_settings Js.Undefined = [Js.Undefined; Js.Str "ExternalEwsUrl"] /\
  wrapSettingsRequest Js.Undefined
    = "<a:Setting>undefined</a:Setting><a:Setting>ExternalEwsUrl</a:Setting>" /\
  createAutodiscoverSoap emailAddress Js.Undefined
    = soap_before_mailbox ++ emailAddress ++ soap_after_mailbox ++
      "<a:Setting>undefined</a:Setting><a:Setting>ExternalEwsUrl</a:Setting>" ++
      soap_after_settings.
Proof. repeat split. Qed.

(** ** The race *)
Section Race.

Context {A : Type}.

Lemma first_fulfilled_all_rejected (ps : list (timed A)) :
  forallb is_rejected ps = true -> first_fulfilled ps = None.
Proof.
  induction ps as [|p ps IH]; simpl; [done|].
  unfold is_rejected at 1. destruct (outcome p); simpl; [done|exact IH].
Qed.

Lemma reasons_all_rejected_length (ps : list (timed A)) :
  forallb is_rejected ps = true -> length (reasons ps) = length ps.
Proof.
  induction ps as [|p ps IH]; simpl; [done|].
  unfold is_rejected at 1. destruct (outcome p); simpl; [done|].
  intros H. by rewrite IH.
Qed.

Lemma reasons_Permutation (ps qs : list (timed A)) :
  ps ≡ₚ qs -> reasons ps ≡ₚ reasons qs.
Proof.
  induction 1 as [|p ps qs _ IH|p q ps|ps qs rs _ IH1 _ IH2]; simpl.
  - done.
  - destruct (outcome p); [done|]. by rewrite IH.
  - destruct (outcome p), (outcome q); try done. apply perm_swap.
  - by rewrite IH1.
Qed.

Lemma forallb_is_rejected_Permutation (ps qs : list (timed A)) :
  ps ≡ₚ qs -> forallb is_rejected ps = true -> forallb is_rejected qs = true.
Proof.
  intros HP. rewrite !forallb_forall. intros H p Hp.
  apply H. apply list_elem_of_In. rewrite HP. by apply list_elem_of_In.
Qed.

(** Promise by promise, what [reasons] collects from promises that are all
    rejected. *)
Lemma reasons_all_rejected (ps : list (timed A)) :
  forallb is_rejected ps = true ->
  Forall2 (fun p reason => outcome p = Rejected reason) ps (reasons ps).
Proof.
  induction ps as [|p ps IH]; simpl; [by constructor|].
  unfold is_rejected at 1. destruct (outcome p) as [|reason] eqn:E; simpl; [done|].
  intros H. constructor; [exact E|by apply IH].
Qed.

(** When no promise fulfils, [Promise.any] rejects with the aggregate of
    all the rejection reasons. *)
Lemma any_all_rejected (ps : list (timed A)) :
  ps <> [] -> forallb is_rejected ps = true ->
  exists errors,
    any ps = Rejected (Js.AggregateError errors) /\
    errors ≡ₚ reasons ps /\ length errors = length ps.
Proof.
  intros Hne Hall. exists (reasons (settling_order ps)).
  assert (HP : settling_order ps ≡ₚ ps) by apply merge_sort_Permutation.
  assert (Hall' : forallb is_rejected (settling_order ps) = true)
    by (eapply forallb_is_rejected_Permutation; [symmetry; exact HP|done]).
  split; [|split].
  - unfold any. destruct ps as [|p ps]; [done|].
    by rewrite (first_fulfilled_all_rejected _ Hall').
  - by apply reasons_Permutation.
  - rewrite (reasons_all_rejected_length _ Hall'). by rewrite HP.
Qed.

End Race.

(** ** The response extractor *)
Section Extractor.

Lemma read_path_found v path node :
  find_node v path = Some node -> read_path v path = Js.Normal node.
Proof.
  revert v. induction path as [|k path IH]; intros v; simpl.
  - congruence.
  - destruct v as [| | | | |fields]; try done. simpl.
    destruct (Js.assoc k fields) as [child|]; [|done]. simpl.
    destruct child; try done; apply IH.
Qed.

Lemma read_path_undefined path :
  read_path Js.Undefined path = Js.Throw Js.TypeError \/
  read_path Js.Undefined path = Js.Normal Js.Undefined.
Proof. destruct path; simpl; auto. Qed.

Lemma read_path_missing v path :
  find_node v path = None ->
  read_path v path = Js.Throw Js.TypeError \/
  read_path v path = Js.Normal Js.Undefined.
Proof.
  revert v. induction path as [|k path IH]; intros v; simpl; [done|].
  destruct v as [| | | | |fields]; simpl; auto using read_path_undefined.
  destruct (Js.assoc k fields) as [child|]; simpl;
    [|auto using read_path_undefined].
  destruct child; auto using read_path_undefined.
Qed.

Lemma extract_settings_missing tree :
  find_node tree response_path = None ->
  extract_settings tree = Js.Throw Js.TypeError.
Proof.
  intros H. unfold extract_settings.
  destruct (read_path_missing _ _ H) as [-> | ->]; reflexivity.
Qed.

Lemma store_setting_entry acc entry :
  Js.nullish entry = false ->
  store_setting acc entry
  = Js.Normal (Js.set acc (entry_key entry) (entry_value entry)).
Proof. destruct entry; simpl; done. Qed.

Lemma last_value_cons k entry entries :
  last_value k (entry :: entries)
  = match last_value k entries with
    | Some v => Some v
    | None => if decide (entry_key entry = k) then Some (entry_value entry) else None
    end.
Proof.
  unfold last_value. rewrite filter_cons.
  destruct (decide (entry_key entry = k)).
  - rewrite last_cons. by destruct (last _).
  - by destruct (last _).
Qed.

Lemma last_value_unnamed k entries :
  Forall (fun entry => entry_key entry <> k) entries -> last_value k entries = None.
Proof.
  induction 1 as [|entry entries He _ IH]; [done|].
  rewrite last_value_cons, IH. by destruct (decide (entry_key entry = k)).
Qed.

(** An assignment leaves the own properties of other names alone, the
    assignment to [__proto__] too. *)
Lemma own_set o key v k :
  k <> "__proto__" ->
  Js.own (Js.set o key v) !! k
  = if decide (key = k) then Some v else Js.own o !! k.
Proof.
  intros Hk. unfold Js.set.
  destruct (String.eqb_spec key "__proto__") as [->|Hkey]; simpl.
  - destruct (Js.reaches_proto_accessor o).
    + destruct (decide ("__proto__" = k)) as [<-|_]; [done|]. by destruct v.
    + simpl. apply lookup_insert.
  - apply lookup_insert.
Qed.

(** An assignment to another name than [__proto__] stores a property. *)
Lemma set_named o key v :
  key <> "__proto__" ->
  Js.set o key v = Js.Object (<[key := v]> (Js.own o)) (Js.proto o).
Proof.
  intros Hkey. unfold Js.set.
  by destruct (String.eqb_spec key "__proto__").
Qed.

Lemma reduce_store_setting entries acc :
  Forall (fun entry => Js.nullish entry = false) entries ->
  exists m, reduce store_setting entries acc = Js.Normal m /\
    forall k, k <> "__proto__" ->
      Js.own m !! k = match last_value k entries with
                      | Some v => Some v
                      | None => Js.own acc !! k
                      end.
Proof.
  intros H. revert acc. induction H as [|entry entries He _ IH]; intros acc.
  - exists acc. split; [done|]. intros k _. reflexivity.
  - simpl. rewrite store_setting_entry by done. simpl.
    destruct (IH (Js.set acc (entry_key entry) (entry_value entry))) as (m & -> & Hm).
    exists m. split; [done|]. intros k Hk. rewrite (Hm k Hk), last_value_cons.
    destruct (last_value k entries); [done|]. rewrite own_set by done.
    by destruct (decide (entry_key entry = k)).
Qed.

Lemma reduce_store_setting_named entries acc :
  Forall (fun entry => Js.nullish entry = false) entries ->
  Forall (fun entry => entry_key entry <> "__proto__") entries ->
  forall m, reduce store_setting entries acc = Js.Normal m ->
    Js.proto m = Js.proto acc /\
    Js.own m !! "__proto__" = Js.own acc !! "__proto__".
Proof.
  intros H. revert acc. induction H as [|entry entries He _ IH]; intros acc Hn m.
  - simpl. by intros [= <-].
  - apply Forall_cons in Hn as [Hn1 Hn]. simpl.
    rewrite store_setting_entry by done. simpl. intros Hm.
    destruct (IH _ Hn m Hm) as [-> ->]. rewrite set_named by done. simpl.
    split; [done|]. by rewrite lookup_insert_ne.
Qed.

End Extractor.

(** C9, as the code has it: when the normalized tree has the
    [userSetting] node, the extractor takes it as the sequence of entries
    (the node itself, alone, when it is not an array) and returns the
    object that holds, under each name other than [__proto__], the value
    of the last entry of that name.  When no entry is named [__proto__],
    the object holds nothing under that name either and is a plain
    object. *)
Theorem extract_settings_last_wins (tree node : Js.val) :
  find_node tree response_path = Some node ->
  let entries := match node with Js.Arr elems => elems | _ => [node] end in
  Forall (fun entry => Js.nullish entry = false) entries ->
  exists m,
    extract_settings tree = Js.Normal m /\
    (forall k, k <> "__proto__" -> Js.own m !! k = last_value k entries) /\
    (Forall (fun entry => entry_key entry <> "__proto__") entries ->
     Js.proto m = Js.ObjectPrototype /\
     forall k, Js.own m !! k = last_value k entries).
Proof.
  intros Hnode entries Hentries.
  assert (E : Js.concat_into_empty node = entries) by (by destruct node).
  destruct (reduce_store_setting entries (Js.plain ∅) Hentries) as (m & Hm & Hlookup).
  assert (Hk : forall k, k <> "__proto__" -> Js.own m !! k = last_value k entries).
  { intros k Hne. rewrite (Hlookup k Hne). destruct (last_value k entries); [done|].
    apply lookup_empty. }
  exists m. split; [|split; [exact Hk|]].
  - unfold extract_settings. rewrite (read_path_found _ _ _ Hnode). simpl.
    by rewrite E.
  - intros Hnamed.
    destruct (reduce_store_setting_named entries (Js.plain ∅) Hentries Hnamed m Hm)
      as [Hproto Hown].
    split; [exact Hproto|]. intros k.
    destruct (decide (k = "__proto__")) as [->|Hne]; [|by apply Hk].
    rewrite Hown. simpl. rewrite lookup_empty. symmetry.
    by apply last_value_unnamed.
Qed.

Lemma extract_settings_last_wins_witness :
  let single := Scenario.rename (removePrefix Scenario.lowerCase)
                  (Scenario.settings_document
                     (Scenario.user_setting "ExternalEwsUrl" Scenario.ews_url)) in
  let several := Scenario.rename (removePrefix Scenario.lowerCase)
                   (Scenario.settings_document
                      (Js.Arr [Scenario.user_setting "ExternalEwsUrl" "https://first.example/";
                               Scenario.user_setting "ExternalEwsVersion" "15.00.0000.000";
                               Scenario.user_setting "ExternalEwsUrl" Scenario.ews_url])) in
  (exists m, extract_settings single = Js.Normal m /\
             Js.own m !! "ExternalEwsUrl" = Some (Js.Str Scenario.ews_url) /\
             Js.own m !! "ExternalEwsVersion" = None) /\
  (exists m, extract_settings several = Js.Normal m /\
             Js.proto m = Js.ObjectPrototype /\
             Js.own m !! "ExternalEwsUrl" = Some (Js.Str Scenario.ews_url) /\
             Js.own m !! "ExternalEwsVersion" = Some (Js.Str "15.00.0000.000") /\
             Js.own m !! "__proto__" = None).
Proof.
  intros single several. split.
  - destruct (extract_settings_last_wins single
                (Scenario.rename (removePrefix Scenario.lowerCase)
                   (Scenario.user_setting "ExternalEwsUrl" Scenario.ews_url))
                eq_refl) as (m & Hm & Hk & _).
    + repeat constructor.
    + exists m. split; [exact Hm|]. split; rewrite Hk; done.
  - destruct (extract_settings_last_wins several
                (Js.Arr
                   [Scenario.rename (removePrefix Scenario.lowerCase)
                      (Scenario.user_setting "ExternalEwsUrl" "https://first.example/");
                    Scenario.rename (removePrefix Scenario.lowerCase)
                      (Scenario.user_setting "ExternalEwsVersion" "15.00.0000.000");
                    Scenario.rename (removePrefix Scenario.lowerCase)
                      (Scenario.user_setting "ExternalEwsUrl" Scenario.ews_url)])
                eq_refl) as (m & Hm & _ & Hall).
    + repeat constructor.
    + destruct Hall as [Hproto Hk]; [repeat constructor; discriminate|].
      exists m. split; [exact Hm|]. split; [exact Hproto|].
      repeat split; rewrite Hk; reflexivity.
Defined.

(** C9 as stated fails on an entry named [__proto__]: the entry has a name
    and a value, and the object returned holds nothing under that name. *)
Lemma extract_settings_proto_entry :
  let entry := Scenario.rename (removePrefix Scenario.lowerCase) proto_entry in
  find_node proto_document response_path = Some entry /\
  Js.nullish entry = false /\
  entry_key entry = "__proto__" /\
  entry_value entry = Js.Str "x" /\
  last_value "__proto__" [entry] = Some (Js.Str "x") /\
  extract_settings proto_document = Js.Normal (Js.plain ∅) /\
  Js.own (Js.plain ∅) !! "__proto__" = None /\
  Js.own (Js.plain ∅) !! "__proto__" <> last_value "__proto__" [entry].
Proof. vm_compute. repeat split; discriminate. Qed.

(** An object value under the name [__proto__] becomes the prototype: its
    properties are read through the object, which stores none. *)
Example proto_entry_with_object_value :
  let o := Js.set (Js.plain ∅) "__proto__"
             (Js.Obj [("ExternalEwsUrl", Js.Str "https://elsewhere.example/")]) in
  Js.own o = ∅ /\
  Js.read o "ExternalEwsUrl" = Js.Str "https://elsewhere.example/".
Proof. vm_compute. split; reflexivity. Qed.
(** ** The orchestrator *)
Section Orchestrator.

Context (W : World).

Lemma queryDns_fulfils domain : queryDns W domain = Fulfilled (srv_targets W domain).
Proof. unfold queryDns, srv_targets. by destruct (dnsResolve W _ _). Qed.

Lemma query_always_truthy params : Js.truthy (query_of params) = true.
Proof.
  unfold query_of, Js.or_else.
  by destruct (Js.truthy (queryDnsFlag params)) eqn:E.
Qed.

Lemma otherDomains_queries params smtpDomain :
  otherDomains_of W params smtpDomain = Fulfilled (srv_targets W smtpDomain).
Proof. unfold otherDomains_of. by rewrite query_always_truthy, queryDns_fulfils. Qed.

Lemma candidate_domains_queries params smtpDomain :
  candidate_domains W params smtpDomain
  = Fulfilled (smtpDomain :: srv_targets W smtpDomain).
Proof. unfold candidate_domains. by rewrite otherDomains_queries. Qed.

(** The two handlers at the end of the chain, case by case. *)
Lemma module_exports_settles params (cb : callback) e domains :
  emailAddress params = Js.Str e ->
  candidate_domains W params (smtpDomain_of e) = Fulfilled domains ->
  module_exports W params cb
  = match autodiscoverDomains W domains e (password params)
            (Js.or_else (username params) (Js.Str e)) (settings params) with
    | Fulfilled m =>
        let result := shape_result (settings params) m in
        match cb with
        | None => Returned (Fulfilled result) []
        | Some f =>
            match f (CbResult result) with
            | None => Returned (Fulfilled result) [CbResult result]
            | Some thrown =>
                Returned (Rejected (default thrown (f (CbError thrown))))
                  [CbResult result; CbError thrown]
            end
        end
    | Rejected errors =>
        match cb with
        | None => Returned (Rejected errors) []
        | Some f =>
            Returned (Rejected (default errors (f (CbError errors)))) [CbError errors]
        end
    end.
Proof.
  intros E Hd. unfold module_exports. rewrite E. cbv zeta.
  unfold candidate_domains in Hd.
  destruct (otherDomains_of W params (smtpDomain_of e)) as [others|]; [|done].
  simpl in Hd. injection Hd as <-. simpl and_then.
  destruct (autodiscoverDomains _ _ _ _ _ _) as [m|errors].
  - unfold deliver, report, invoke. destruct cb as [f|]; [|done].
    by destruct (f (CbResult _)).
  - unfold report, invoke. by destruct cb.
Qed.

Lemma module_exports_returns params (cb : bool) e domains :
  emailAddress params = Js.Str e ->
  candidate_domains W params (smtpDomain_of e) = Fulfilled domains ->
  module_exports W params cb
  = let p := and_then
               (autodiscoverDomains W domains e
                  (password params) (Js.or_else (username params) (Js.Str e))
                  (settings params))
               (fun m => Fulfilled (shape_result (settings params) m)) in
    Returned p (notify cb p).
Proof.
  intros E Hd. rewrite (module_exports_settles params cb e domains E Hd).
  destruct (autodiscoverDomains _ _ _ _ _ _); by destruct cb.
Qed.

Lemma autodiscoverDomains_rejected domains e pw user requested reason :
  any (attempts W domains user pw (createAutodiscoverSoap e requested)) = Rejected reason ->
  autodiscoverDomains W domains e pw user requested = Rejected reason.
Proof. intros H. unfold autodiscoverDomains. cbv zeta. by rewrite H. Qed.

Lemma autodiscoverDomains_won domains e pw user requested winner tree :
  any (attempts W domains user pw (createAutodiscoverSoap e requested)) = Fulfilled winner ->
  xmlToJson W winner = Fulfilled tree ->
  autodiscoverDomains W domains e pw user requested
  = of_completion (extract_settings tree).
Proof.
  intros H1 H2. unfold autodiscoverDomains. cbv zeta. rewrite H1. simpl. by rewrite H2.
Qed.

Lemma attempts_length domains user pw requestBody :
  length (attempts W domains user pw requestBody) = 3 * length domains.
Proof.
  unfold attempts. induction domains as [|d domains IH]; [done|].
  change (length (attempts_for W user pw requestBody d ++
                   concat (map (attempts_for W user pw requestBody) domains))
          = 3 * length (d :: domains)).
  rewrite length_app, IH. simpl. lia.
Qed.

End Orchestrator.

Example scenario_1 :
  module_exports world_of_scenario_1 (Scenario.params_for "foo@bar.onmicrosoft.com") true
  = Returned (Fulfilled (SettingValue (Js.Str Scenario.ews_url)))
      [CbResult (SettingValue (Js.Str Scenario.ews_url))].
Proof. vm_compute. reflexivity. Qed.

Example scenario_2 :
  module_exports
    (Scenario.world Scenario.no_srv
       "https://bar.onmicrosoft.com/autodiscover/autodiscover.svc"
       (Scenario.settings_document
          (Js.Arr [Scenario.user_setting "ExternalEwsUrl" Scenario.ews_url;
                   Scenario.user_setting "ExternalEwsVersion" "15.00.0000.000"])))
    {| emailAddress := Js.Str "foo@bar.onmicrosoft.com";
       password := Js.Str "pass";
       username := Js.Undefined;
       queryDnsFlag := Js.Undefined;
       settings := Js.Arr [Js.Str "ExternalEwsVersion"] |} false
  = Returned
      (Fulfilled (SettingsObject
         (Js.plain (<[ "ExternalEwsVersion" := Js.Str "15.00.0000.000" ]>
                      {[ "ExternalEwsUrl" := Js.Str Scenario.ews_url ]})))) [].
Proof. vm_compute. reflexivity. Qed.

(** A probe answered with 302 is followed to its [Location]; any other
    status fails the third attempt with the handler's plain [Error]. *)
Example redirect_followed :
  module_exports
    (Scenario.world_with_redirect "bar.com" 302
       "https://pod51000.outlook.example/autodiscover/autodiscover.svc"
       (Scenario.settings_document
          (Scenario.user_setting "ExternalEwsUrl" Scenario.ews_url)))
    (Scenario.params_for "foo@bar.com") false
  = Returned (Fulfilled (SettingValue (Js.Str Scenario.ews_url))) [].
Proof. vm_compute. reflexivity. Qed.

Example redirect_with_other_status :
  let W := Scenario.world_with_redirect "bar.com" 301
             "https://pod51000.outlook.example/autodiscover/autodiscover.svc"
             (Scenario.settings_document
                (Scenario.user_setting "ExternalEwsUrl" Scenario.ews_url)) in
  timed_then (rp W (redirect_probe "bar.com"))
    (follow_redirect W (Js.Str "foo@bar.com") (Js.Str "pass") "")
  = Timed 2 (Rejected Js.PlainError) /\
  module_exports W (Scenario.params_for "foo@bar.com") false
  = Returned
      (Rejected (Js.AggregateError
         [Js.RequestError "ECONNREFUSED"; Js.RequestError "ECONNREFUSED"; Js.PlainError]))
      [].
Proof. vm_compute. split; reflexivity. Qed.

(** The two cases of the result shaping the code has: [settings] omitted,
    and a non-empty array of names. *)
Lemma shape_result_omitted (m : gmap string Js.val) :
  shape_result Js.Undefined (Js.plain m)
  = SettingValue (default Js.Undefined (m !! EWS_URL_SETTING)).
Proof. unfold shape_result, Js.read. simpl. by destruct (m !! EWS_URL_SETTING). Qed.

Lemma shape_result_requested (name : Js.val) (names : list Js.val)
    (m : Js.object) :
  shape_result (Js.Arr (name :: names)) m = SettingsObject m.
Proof. reflexivity. Qed.

(** C7: when the SRV lookup for [_autodiscover._tcp.<domain>] is rejected,
    whatever the reason, the promise of [queryDns] fulfils with the empty
    array, the candidate list is the SMTP domain alone, and the call goes
    on to race the endpoints of that one domain. *)
Theorem queryDns_failure_is_empty (W : World) (domain : string) (reason : Js.error) :
  dnsResolve W ("_autodiscover._tcp." ++ domain) "SRV" = Rejected reason ->
  queryDns W domain = Fulfilled [] /\
  (forall params, candidate_domains W params domain = Fulfilled [domain]) /\
  (forall params (cb : bool) e,
      emailAddress params = Js.Str e -> smtpDomain_of e = domain ->
      let p := and_then
                 (autodiscoverDomains W [domain] e (password params)
                    (Js.or_else (username params) (Js.Str e)) (settings params))
                 (fun m => Fulfilled (shape_result (settings params) m)) in
      module_exports W params cb = Returned p (notify cb p)).
Proof.
  intros Hdns.
  assert (Hq : queryDns W domain = Fulfilled []) by (unfold queryDns; by rewrite Hdns).
  assert (Hc : forall params, candidate_domains W params domain = Fulfilled [domain]).
  { intros params. rewrite candidate_domains_queries.
    unfold srv_targets. by rewrite Hdns. }
  split; [done|]. split; [done|].
  intros params cb e He Hd.
  apply (module_exports_returns W params cb e [domain] He). rewrite Hd. apply Hc.
Qed.

Lemma queryDns_failure_is_empty_witness :
  queryDns world_redirecting "bar.com" = Fulfilled [] /\
  candidate_domains world_redirecting (Scenario.params_for "foo@bar.com") "bar.com"
  = Fulfilled ["bar.com"].
Proof.
  destruct (queryDns_failure_is_empty world_redirecting "bar.com"
              (Js.DnsError "ENOTFOUND") eq_refl)
    as (H1 & H2 & _).
  split; [exact H1|exact (H2 _)].
Defined.

(** C5: when every promise pushed for every candidate domain is rejected,
    the call is rejected with Bluebird's [AggregateError]; the errors it
    holds are, one for one, the reasons the attempts were rejected with,
    three per domain, listed in the order in which the attempts settled
    (here: up to a permutation of the order in which they were made). *)
Theorem all_attempts_fail (W : World) (params : Params) (cb : bool) (e : string)
    (domains : list string) :
  emailAddress params = Js.Str e ->
  candidate_domains W params (smtpDomain_of e) = Fulfilled domains ->
  forallb is_rejected (attempts_of W params e domains) = true ->
  exists errors,
    module_exports W params cb
    = Returned (Rejected (Js.AggregateError errors))
        (if cb then [CbError (Js.AggregateError errors)] else []) /\
    (exists failures,
        Forall2 (fun attempt reason => outcome attempt = Rejected reason)
          (attempts_of W params e domains) failures /\
        errors ≡ₚ failures) /\
    length errors = 3 * length domains.
Proof.
  intros He Hd Hall.
  destruct (any_all_rejected (attempts_of W params e domains))
    as (errors & Hany & Hperm & Hlen).
  - intros Hnil. apply (f_equal length) in Hnil. unfold attempts_of in Hnil.
    rewrite attempts_length in Hnil.
    rewrite candidate_domains_queries in Hd. injection Hd as <-.
    simpl in Hnil. lia.
  - exact Hall.
  - exists errors. split; [|split].
    + rewrite (module_exports_returns W params cb e domains He Hd). cbv zeta.
      rewrite (autodiscoverDomains_rejected W _ _ _ _ _ _ Hany). reflexivity.
    + exists (reasons (attempts_of W params e domains)).
      split; [by apply reasons_all_rejected|exact Hperm].
    + rewrite Hlen. apply attempts_length.
Qed.

Lemma all_attempts_fail_witness :
  exists errors,
    module_exports world_unreachable (Scenario.params_for "foo@bar.com") true
    = Returned (Rejected (Js.AggregateError errors))
        [CbError (Js.AggregateError errors)] /\
    errors ≡ₚ [Js.RequestError "ECONNREFUSED"; Js.RequestError "ECONNREFUSED";
               Js.RequestError "ECONNREFUSED"].
Proof.
  destruct (all_attempts_fail world_unreachable
              (Scenario.params_for "foo@bar.com") true "foo@bar.com" ["bar.com"]
              eq_refl eq_refl eq_refl) as (errors & H1 & (failures & HF & HP) & _).
  exists errors. split; [exact H1|]. rewrite HP.
  vm_compute in HF.
  apply Forall2_cons_inv_l in HF as (r1 & k1 & E1 & HF & ->).
  apply Forall2_cons_inv_l in HF as (r2 & k2 & E2 & HF & ->).
  apply Forall2_cons_inv_l in HF as (r3 & k3 & E3 & HF & ->).
  apply Forall2_nil_inv_l in HF as ->.
  injection E1 as <-. injection E2 as <-. injection E3 as <-. reflexivity.
Defined.

(** C6: when the body that won the race parses, and some node of the path
    envelope, body, getUserSettingsResponseMessage, response,
    userResponses, userResponse, userSettings, userSetting is missing from
    the normalized tree, the call is rejected with the [TypeError] raised
    by the extractor, which is this module's malformed-response failure. *)
Theorem missing_node_rejects (W : World) (params : Params) (cb : bool) (e : string)
    (domains : list string) (winner : RpValue) (tree : Js.val) :
  emailAddress params = Js.Str e ->
  candidate_domains W params (smtpDomain_of e) = Fulfilled domains ->
  any (attempts_of W params e domains) = Fulfilled winner ->
  xmlToJson W winner = Fulfilled tree ->
  find_node tree response_path = None ->
  module_exports W params cb
  = Returned (Rejected Js.TypeError) (if cb then [CbError Js.TypeError] else []).
Proof.
  intros He Hd Hany Hparse Hmissing.
  rewrite (module_exports_returns W params cb e domains He Hd). cbv zeta.
  rewrite (autodiscoverDomains_won W _ _ _ _ _ _ _ Hany Hparse).
  by rewrite (extract_settings_missing _ Hmissing).
Qed.

Lemma missing_node_rejects_witness :
  module_exports world_redirecting (Scenario.params_for "foo@bar.com") true
  = Returned (Rejected Js.TypeError) [CbError Js.TypeError].
Proof.
  exact (missing_node_rejects world_redirecting
           (Scenario.params_for "foo@bar.com") true "foo@bar.com" ["bar.com"]
           (Body Scenario.response_xml)
           (Scenario.rename (removePrefix Scenario.lowerCase) Scenario.redirect_document)
           eq_refl eq_refl eq_refl eq_refl eq_refl).
Defined.

(** C4, as the code has it: the call validates nothing.  For every request
    whose email address is a string, the address is taken whole as the SMTP
    domain when it holds no [@], the password is handed on as it is, and
    the call fulfils whenever the race has a winner whose body parses to a
    tree with well-formed settings entries. *)
Theorem unvalidated_request_proceeds (W : World) (params : Params) (cb : bool)
    (e : string) :
  emailAddress params = Js.Str e ->
  (has_char "@" e = false ->
   smtpDomain_of e = e /\
   candidate_domains W params (smtpDomain_of e) = Fulfilled (e :: srv_targets W e)) /\
  (forall domains winner tree node,
      candidate_domains W params (smtpDomain_of e) = Fulfilled domains ->
      any (attempts_of W params e domains) = Fulfilled winner ->
      xmlToJson W winner = Fulfilled tree ->
      find_node tree response_path = Some node ->
      Forall (fun entry => Js.nullish entry = false) (Js.concat_into_empty node) ->
      exists m,
        extract_settings tree = Js.Normal m /\
        module_exports W params cb
        = Returned (Fulfilled (shape_result (settings params) m))
            (if cb then [CbResult (shape_result (settings params) m)] else [])).
Proof.
  intros He. split.
  - intros Hat. rewrite (smtpDomain_without_at _ Hat).
    split; [done|apply candidate_domains_queries].
  - intros domains winner tree node Hd Hany Hparse Hnode Hentries.
    destruct (reduce_store_setting _ (Js.plain ∅) Hentries) as (m & Hm & _).
    assert (Hx : extract_settings tree = Js.Normal m).
    { unfold extract_settings. by rewrite (read_path_found _ _ _ Hnode). }
    exists m. split; [exact Hx|].
    rewrite (module_exports_returns W params cb e domains He Hd). cbv zeta.
    rewrite (autodiscoverDomains_won W _ _ _ _ _ _ _ Hany Hparse), Hx.
    reflexivity.
Qed.

Lemma unvalidated_request_proceeds_witness :
  candidate_domains world_answering_foobar request_without_at_or_password
    (smtpDomain_of "foobar") = Fulfilled ["foobar"] /\
  exists m,
    module_exports world_answering_foobar request_without_at_or_password false
    = Returned (Fulfilled (shape_result Js.Undefined m)) [].
Proof.
  destruct (unvalidated_request_proceeds world_answering_foobar
              request_without_at_or_password false "foobar" eq_refl) as [H1 H2].
  split; [exact (proj2 (H1 eq_refl))|].
  destruct (H2 ["foobar"] (Body Scenario.response_xml)
              (Scenario.rename (removePrefix Scenario.lowerCase)
                 (Scenario.settings_document
                    (Scenario.user_setting "ExternalEwsUrl" Scenario.ews_url)))
              (Scenario.rename (removePrefix Scenario.lowerCase)
                 (Scenario.user_setting "ExternalEwsUrl" Scenario.ews_url))
              eq_refl eq_refl eq_refl eq_refl) as (m & _ & Hm).
  - repeat constructor.
  - exists m. exact Hm.
Defined.

(** C4 as stated fails: a request whose address has no [@] and which
    carries no password is not rejected; here it resolves with the EWS
    URL. *)
Lemma request_without_at_or_password_resolves :
  has_char "@" "foobar" = false /\
  password request_without_at_or_password = Js.Undefined /\
  module_exports world_answering_foobar request_without_at_or_password false
  = Returned (Fulfilled (SettingValue (Js.Str Scenario.ews_url))) [] /\
  (forall reason,
      module_exports world_answering_foobar request_without_at_or_password false
      <> Returned (Rejected reason) []) /\
  (forall reason,
      module_exports world_answering_foobar request_without_at_or_password false
      <> Threw reason).
Proof.
  assert (E : module_exports world_answering_foobar request_without_at_or_password false
              = Returned (Fulfilled (SettingValue (Js.Str Scenario.ews_url))) [])
    by (vm_compute; reflexivity).
  repeat split; try exact E; intros reason; rewrite E; discriminate.
Qed.

(** C1 on the code: with [queryDns: false], [params.queryDns || true] is
    still [true]; the SRV lookup is made and its target joins the
    candidates, here as the only host that answers. *)
Theorem queryDns_false_still_queries :
  query_of request_with_queryDns_false = Js.Bool true /\
  otherDomains_of world_answering_srv_host request_with_queryDns_false "bar.com"
  = queryDns world_answering_srv_host "bar.com" /\
  candidate_domains world_answering_srv_host request_with_queryDns_false
    (smtpDomain_of "foo@bar.com")
  = Fulfilled ["bar.com"; "mail.hoster.example"] /\
  module_exports world_answering_srv_host request_with_queryDns_false false
  = Returned (Fulfilled (SettingValue (Js.Str Scenario.ews_url))) [].
Proof. vm_compute. repeat split. Qed.

(** C2 on the code: an empty [settings] array is truthy, so the call
    resolves with the settings object and not with the URL string. *)
Theorem empty_settings_resolve_with_object :
  Js.truthy (settings request_with_empty_settings) = true /\
  module_exports world_of_scenario_1 request_with_empty_settings false
  = Returned (Fulfilled (SettingsObject
                           (Js.plain {[ "ExternalEwsUrl" := Js.Str Scenario.ews_url ]}))) [] /\
  module_exports world_of_scenario_1 request_with_empty_settings false
  <> Returned (Fulfilled (SettingValue (Js.Str Scenario.ews_url))) [].
Proof.
  assert (E : module_exports world_of_scenario_1 request_with_empty_settings false
              = Returned (Fulfilled (SettingsObject
                   (Js.plain {[ "ExternalEwsUrl" := Js.Str Scenario.ews_url ]}))) [])
    by (vm_compute; reflexivity).
  repeat split; try exact E. rewrite E. discriminate.
Qed.

(** * Further properties *)

(** ** Names once more *)
Section NormalizedNames.

Lemma split_segments_clean c s seg :
  seg ∈ Js.split c s -> has_char c seg = false.
Proof.
  revert seg. induction s as [|a s IH]; intros seg; simpl.
  - intros H. apply list_elem_of_singleton in H. by subst.
  - destruct (Ascii.eqb a c) eqn:E.
    + intros H. apply elem_of_cons in H as [->|H]; [done|by apply IH].
    + destruct (Js.split c s) as [|seg0 segs] eqn:Es.
      * intros H. apply list_elem_of_singleton in H. subst. simpl. by rewrite E.
      * intros H. apply elem_of_cons in H as [->|H].
        -- simpl. rewrite E. apply IH. by left.
        -- apply IH. by right.
Qed.

Lemma split_nonempty c s : exists seg segs, Js.split c s = seg :: segs.
Proof.
  destruct s as [|a s]; simpl; [by eauto|].
  destruct (Ascii.eqb a c); [by eauto|].
  destruct (Js.split c s); eauto.
Qed.

Lemma lower_ascii_keeps_colon_out a :
  Ascii.eqb a ":" = false -> Ascii.eqb (Js.lower_ascii a) ":" = false.
Proof. destruct a as [[] [] [] [] [] [] [] []]; vm_compute; congruence. Qed.

Lemma lower_ascii_idempotent a : Js.lower_ascii (Js.lower_ascii a) = Js.lower_ascii a.
Proof. destruct a as [[] [] [] [] [] [] [] []]; reflexivity. Qed.

Lemma lower_ascii_stays_ascii a :
  Js.is_ascii a = true -> Js.is_ascii (Js.lower_ascii a) = true.
Proof. destruct a as [[] [] [] [] [] [] [] []]; vm_compute; congruence. Qed.

Lemma has_char_app c (s t : string) :
  has_char c (s ++ t) = has_char c s || has_char c t.
Proof.
  induction s as [|a s IH]; [done|].
  rewrite append_cons. simpl. by rewrite IH, orb_assoc.
Qed.

Lemma has_char_take_drop c n (s : string) :
  has_char c s = false ->
  has_char c (Js.take n s) = false /\ has_char c (Js.drop n s) = false.
Proof.
  intros H. rewrite <- (take_drop n s), has_char_app in H.
  by apply orb_false_elim in H.
Qed.

Section CaseMapping.

Context (lower : string -> string).

(** The engine's mapping yields no colon. *)
Hypothesis lower_clean : forall c, has_char ":" c = false -> has_char ":" (lower c) = false.

Lemma lower_first_clean s :
  has_char ":" s = false -> has_char ":" (lower_first lower s) = false.
Proof.
  intros H. unfold lower_first, Js.charAt0, Js.slice1.
  destruct (has_char_take_drop ":" (Js.first_unit_bytes s) s H) as [Ht Hd].
  rewrite has_char_app, Hd, orb_false_r.
  destruct (Js.take _ s) as [|a rest]; [done|]. unfold Js.toLowerCase.
  destruct (Js.is_ascii a); [|by apply lower_clean].
  simpl in *. apply orb_false_elim in Ht as [Ha Hrest].
  by rewrite (lower_ascii_keeps_colon_out _ Ha), Hrest.
Qed.

(** The segment [removePrefix] retains is one of the split's, so it holds
    no colon. *)
Lemma removePrefix_segment name :
  exists segment, removePrefix lower name = lower_first lower segment /\
                  has_char ":" segment = false.
Proof.
  destruct (split_nonempty ":" name) as (seg & segs & E).
  assert (Hin : forall x, x ∈ seg :: segs -> has_char ":" x = false).
  { intros x Hx. apply (split_segments_clean ":" name). by rewrite E. }
  unfold removePrefix. rewrite E. simpl.
  destruct segs as [|second segs]; simpl.
  - exists seg. split; [done|]. apply Hin. by left.
  - destruct (String.eqb second "").
    + exists seg. split; [done|]. apply Hin. by left.
    + exists second. split; [done|]. apply Hin. right. by left.
Qed.

(** Lower-casing the first character a second time changes nothing, once
    this is so where the first character is one the engine maps. *)
Lemma lower_first_idempotent :
  (forall a rest, 128 <= nat_of_ascii a < 240 ->
     lower_first lower (lower_first lower (String a rest))
     = lower_first lower (String a rest)) ->
  forall s, lower_first lower (lower_first lower s) = lower_first lower s.
Proof.
  intros Hwide [|a rest]; [done|].
  destruct (Js.is_ascii a) eqn:Ea.
  - rewrite (lower_first_ascii lower a rest Ea).
    rewrite (lower_first_ascii lower _ rest (lower_ascii_stays_ascii a Ea)).
    by rewrite lower_ascii_idempotent.
  - unfold Js.is_ascii in Ea. apply Nat.ltb_ge in Ea.
    destruct (Nat.lt_ge_cases (nat_of_ascii a) 240) as [Hlt|Hge].
    + apply Hwide. lia.
    + by rewrite !(lower_first_surrogate lower a rest Hge).
Qed.

End CaseMapping.

End NormalizedNames.

(** The mapping of the concrete worlds meets both conditions. *)
Lemma scenario_lowerCase_clean c :
  has_char ":" c = false -> has_char ":" (Scenario.lowerCase c) = false.
Proof.
  intros H. unfold Scenario.lowerCase.
  destruct (String.eqb c "É"); [done|]. by destruct (String.eqb c "Ω").
Qed.

Lemma scenario_lowerCase_settles a rest :
  128 <= nat_of_ascii a < 240 ->
  lower_first Scenario.lowerCase (lower_first Scenario.lowerCase (String a rest))
  = lower_first Scenario.lowerCase (String a rest).
Proof.
  intros [Hlo Hhi].
  assert (Ea : Js.is_ascii a = false) by (apply Nat.ltb_ge; lia).
  assert (E : lower_first Scenario.lowerCase (String a rest)
              = Scenario.lowerCase (Js.charAt0 (String a rest))
                ++ Js.slice1 (String a rest)).
  { unfold lower_first. f_equal. unfold Js.charAt0, Js.first_unit_bytes.
    assert (E1 : (nat_of_ascii a <? 128)%nat = false) by (apply Nat.ltb_ge; lia).
    rewrite E1.
    destruct (nat_of_ascii a <? 224)%nat; simpl Js.take;
      [|destruct (nat_of_ascii a <? 240)%nat eqn:E3;
        [simpl Js.take|apply Nat.ltb_ge in E3; lia]];
      unfold Js.toLowerCase; by rewrite Ea. }
  assert (Hs : Js.charAt0 (String a rest) ++ Js.slice1 (String a rest) = String a rest)
    by apply take_drop.
  remember (Js.charAt0 (String a rest)) as c eqn:Hc.
  remember (Js.slice1 (String a rest)) as r eqn:Hr.
  rewrite E.
  destruct (String.eqb_spec c "É") as [->|H1].
  { assert (HL : Scenario.lowerCase "É" = "é") by reflexivity.
    rewrite HL. rewrite (lower_first_wide Scenario.lowerCase "é" r); [reflexivity|].
    unfold wide_char. change (nat_of_ascii "195") with 195. lia. }
  destruct (String.eqb_spec c "Ω") as [->|H2].
  { assert (HL : Scenario.lowerCase "Ω" = "ω") by reflexivity.
    rewrite HL. rewrite (lower_first_wide Scenario.lowerCase "ω" r); [reflexivity|].
    unfold wide_char. change (nat_of_ascii "207") with 207. lia. }
  assert (HL : Scenario.lowerCase c = c).
  { unfold Scenario.lowerCase.
    by rewrite (proj2 (String.eqb_neq _ _) H1), (proj2 (String.eqb_neq _ _) H2). }
  rewrite HL in *. rewrite Hs. by rewrite E.
Qed.

(** X1: the normalized name holds no colon, whatever the name, as long as
    the engine's lower-case mapping yields none. *)
Theorem removePrefix_leaves_no_colon (lower : string -> string) (name : string) :
  (forall c, has_char ":" c = false -> has_char ":" (lower c) = false) ->
  has_char ":" (removePrefix lower name) = false.
Proof.
  intros Hclean.
  destruct (removePrefix_segment lower name) as (segment & -> & H).
  by apply lower_first_clean.
Qed.

Lemma removePrefix_leaves_no_colon_witness :
  has_char ":" (removePrefix Scenario.lowerCase "xmlns:Éa:b") = false.
Proof.
  exact (removePrefix_leaves_no_colon Scenario.lowerCase "xmlns:Éa:b"
           scenario_lowerCase_clean).
Defined.

(** X2: normalizing a normalized name changes nothing, as long as the
    engine's mapping yields no colon and maps a character to text whose
    first character is in lower case already. *)
Theorem removePrefix_idempotent (lower : string -> string) (name : string) :
  (forall c, has_char ":" c = false -> has_char ":" (lower c) = false) ->
  (forall a rest, 128 <= nat_of_ascii a < 240 ->
     lower_first lower (lower_first lower (String a rest))
     = lower_first lower (String a rest)) ->
  removePrefix lower (removePrefix lower name) = removePrefix lower name.
Proof.
  intros Hclean Hwide.
  destruct (removePrefix_segment lower name) as (segment & -> & H).
  assert (Hc : has_char ":" (lower_first lower segment) = false)
    by (by apply lower_first_clean).
  unfold removePrefix at 1. rewrite (split_without_separator _ _ Hc). simpl.
  by apply lower_first_idempotent.
Qed.

Lemma removePrefix_idempotent_witness :
  removePrefix Scenario.lowerCase (removePrefix Scenario.lowerCase "a:Éa")
  = removePrefix Scenario.lowerCase "a:Éa" /\
  removePrefix Scenario.lowerCase "a:Éa" = "éa".
Proof.
  split; [|reflexivity].
  exact (removePrefix_idempotent Scenario.lowerCase "a:Éa"
           scenario_lowerCase_clean scenario_lowerCase_settles).
Defined.

(** ** The SMTP domain *)

Lemma index_of_first c l r :
  has_char c l = false ->
  Js.index_of c (l ++ String c r) = Z.of_nat (String.length l).
Proof.
  induction l as [|a l IH]; simpl.
  - intros _. by rewrite Ascii.eqb_refl.
  - destruct (Ascii.eqb a c); simpl; [done|]. intros H. rewrite (IH H).
    destruct (Z.ltb_spec (Z.of_nat (String.length l)) 0); lia.
Qed.

Lemma drop_past l a r : Js.drop (S (String.length l)) (l ++ String a r) = r.
Proof. induction l as [|b l IH]; simpl; [done|exact IH]. Qed.

(** X3: the SMTP domain is what follows the first [@] of the address,
    further [@] signs included. *)
Theorem smtpDomain_after_first_at (local rest : string) :
  has_char "@" local = false ->
  smtpDomain_of (local ++ String "@" rest) = rest.
Proof.
  intros H. unfold smtpDomain_of, Js.substr. rewrite (index_of_first _ _ _ H).
  replace (Z.to_nat (Z.of_nat (String.length local) + 1)) with (S (String.length local))
    by lia.
  apply drop_past.
Qed.

Lemma smtpDomain_after_first_at_witness :
  smtpDomain_of "foo@bar.onmicrosoft.com" = "bar.onmicrosoft.com" /\
  smtpDomain_of "a@b@c.example" = "b@c.example".
Proof.
  split.
  - exact (smtpDomain_after_first_at "foo" "bar.onmicrosoft.com" eq_refl).
  - exact (smtpDomain_after_first_at "a" "b@c.example" eq_refl).
Defined.

(** ** The requested settings, whatever the caller passes *)
Section AnySettings.

Lemma count_setting_app s l1 l2 :
  count_setting s (l1 ++ l2) = count_setting s l1 + count_setting s l2.
Proof. induction l1 as [|v l1 IH]; simpl; [done|]. rewrite IH. lia. Qed.

Lemma existsb_is_str_count s l :
  existsb (Js.is_str s) l = negb (count_setting s l =? 0)%nat.
Proof.
  induction l as [|v l IH]; simpl; [done|].
  rewrite IH. by destruct (Js.is_str s v).
Qed.

Lemma is_str_true s v : Js.is_str s v = true -> v = Js.Str s.
Proof.
  destruct v; simpl; try done. intros H. apply String.eqb_eq in H. by subst.
Qed.

Lemma count_setting_split s l :
  1 <= count_setting s l -> exists l1 l2, l = (l1 ++ Js.Str s :: l2)%list.
Proof.
  induction l as [|v l IH]; simpl; [lia|].
  destruct (Js.is_str s v) eqn:E.
  - intros _. apply is_str_true in E. subst. by exists [], l.
  - intros H. destruct (IH H) as (l1 & l2 & ->). by exists (v :: l1), l2.
Qed.

Lemma join_empty_app (l1 l2 : list string) :
  Js.join "" (l1 ++ l2) = Js.join "" l1 ++ Js.join "" l2.
Proof.
  induction l1 as [|s l1 IH]; [done|].
  change ((s :: l1) ++ l2)%list with (s :: (l1 ++ l2))%list.
  by rewrite !join_empty_cons, IH, append_assoc.
Qed.

Lemma starts_with_itself p y : starts_with p (p ++ y) = true.
Proof.
  induction p as [|a p IH]; [done|].
  rewrite append_cons. cbn [starts_with]. by rewrite Ascii.eqb_refl, IH.
Qed.

Lemma occurrences_after p x t : occurrences p t <= occurrences p (x ++ t).
Proof.
  induction x as [|a x IH]; [done|].
  rewrite append_cons. cbn [occurrences]. lia.
Qed.

Lemma occurrences_embedded a p x y :
  1 <= occurrences (String a p) (x ++ String a p ++ y).
Proof.
  etransitivity; [|apply occurrences_after].
  rewrite append_cons. cbn [occurrences].
  rewrite <- append_cons, starts_with_itself. lia.
Qed.

Lemma requested_settings_count v :
  1 <= count_setting EWS_URL_SETTING (requested_settings v).
Proof.
  unfold requested_settings, Js.index_of_is_minus_one.
  rewrite existsb_is_str_count, negb_involutive.
  destruct (Nat.eqb_spec (count_setting EWS_URL_SETTING (Js.concat_into_empty v)) 0).
  - rewrite count_setting_app. simpl. lia.
  - lia.
Qed.

End AnySettings.

(** X4: for any value of [settings], the rendered array keeps what the
    caller passed, in order, at its front; it is followed by
    ExternalEwsUrl exactly when the caller's elements do not hold that
    string, so the name is always rendered at least once. *)
Theorem requested_settings_keeps_request (settings : Js.val) :
  let asked := Js.concat_into_empty settings in
  requested_settings settings
  = (asked ++ if (count_setting EWS_URL_SETTING asked =? 0)%nat
              then [Js.Str EWS_URL_SETTING] else [])%list /\
  1 <= count_setting EWS_URL_SETTING (requested_settings settings).
Proof.
  intros asked. split; [|apply requested_settings_count].
  unfold requested_settings, Js.index_of_is_minus_one. fold asked.
  rewrite existsb_is_str_count, negb_involutive.
  destruct (count_setting EWS_URL_SETTING asked =? 0)%nat; [done|].
  by rewrite app_nil_r.
Qed.

(** X5: a single string is rendered as the one-element array holding it:
    its element, followed by the ExternalEwsUrl element unless the string
    is that very name. *)
Theorem wrapSettingsRequest_single_string (name : string) :
  wrapSettingsRequest (Js.Str name) = wrapSettingsRequest (Js.Arr [Js.Str name]) /\
  wrapSettingsRequest (Js.Str name)
  = if String.eqb name EWS_URL_SETTING then ews_node
    else name_node name ++ ews_node.
Proof.
  split; [reflexivity|].
  unfold wrapSettingsRequest, requested_settings, Js.index_of_is_minus_one. simpl.
  destruct (String.eqb name EWS_URL_SETTING) eqn:E; simpl.
  - apply String.eqb_eq in E. by subst.
  - reflexivity.
Qed.

(** X6: whatever the address and whatever the value of [settings], the
    request body holds the element that asks for ExternalEwsUrl. *)
Theorem createAutodiscoverSoap_requests_ews_url (emailAddress : string)
    (settings : Js.val) :
  1 <= occurrences ews_node (createAutodiscoverSoap emailAddress settings).
Proof.
  destruct (count_setting_split _ _ (requested_settings_count settings))
    as (l1 & l2 & E).
  unfold createAutodiscoverSoap, wrapSettingsRequest. rewrite E.
  rewrite map_app, join_empty_app. simpl map. rewrite join_empty_cons.
  change (setting_node (Js.Str EWS_URL_SETTING)) with ews_node.
  rewrite !append_assoc, <- !(append_assoc _ _ (ews_node ++ _)).
  apply occurrences_embedded.
Qed.

(** ** The race once more *)
Section RaceWinner.

Context {A : Type}.

Lemma earlier_transitive : Transitive (@earlier A).
Proof. intros p q r. unfold earlier. lia. Qed.

Lemma earlier_total : Total (@earlier A).
Proof. intros p q. unfold earlier. lia. Qed.

Lemma first_fulfilled_sorted (ps : list (timed A)) a :
  StronglySorted earlier ps ->
  first_fulfilled ps = Some a ->
  exists p, p ∈ ps /\ outcome p = Fulfilled a /\
            forall q, q ∈ ps -> is_fulfilled q = true -> settles_at p <= settles_at q.
Proof.
  induction 1 as [|p ps Hps IH Hp]; simpl; [done|].
  destruct (outcome p) as [b|err] eqn:Ep.
  - intros [= ->]. exists p. split; [by left|]. split; [done|].
    intros q Hq _. apply elem_of_cons in Hq as [->|Hq]; [done|].
    rewrite Forall_forall in Hp. apply (Hp q Hq).
  - intros Hf. destruct (IH Hf) as (w & Hw & Ew & Hmin).
    exists w. split; [by right|]. split; [done|].
    intros q Hq Hful. apply elem_of_cons in Hq as [->|Hq]; [|by apply Hmin].
    unfold is_fulfilled, is_rejected in Hful. by rewrite Ep in Hful.
Qed.

Lemma first_fulfilled_none (ps : list (timed A)) :
  first_fulfilled ps = None -> forall q, q ∈ ps -> is_fulfilled q = false.
Proof.
  induction ps as [|p ps IH]; simpl.
  - intros _ q Hq. by apply elem_of_nil in Hq.
  - destruct (outcome p) eqn:Ep; [done|].
    intros H q Hq. apply elem_of_cons in Hq as [->|Hq]; [|by apply IH].
    unfold is_fulfilled, is_rejected. by rewrite Ep.
Qed.

(** A fulfilled [Promise.any] carries the value of a fulfilled promise
    that no other fulfilled promise settled before. *)
Lemma any_fulfilled (ps : list (timed A)) a :
  any ps = Fulfilled a ->
  exists p, p ∈ ps /\ outcome p = Fulfilled a /\
            forall q, q ∈ ps -> is_fulfilled q = true -> settles_at p <= settles_at q.
Proof.
  unfold any. destruct ps as [|p0 ps]; [done|].
  set (l := p0 :: ps).
  assert (HP : settling_order l ≡ₚ l) by apply merge_sort_Permutation.
  assert (HS : StronglySorted earlier (settling_order l))
    by apply (@StronglySorted_merge_sort _ earlier _ earlier_transitive earlier_total).
  destruct (first_fulfilled (settling_order l)) as [b|] eqn:E; [|done].
  intros [= ->]. destruct (first_fulfilled_sorted _ _ HS E) as (p & Hp & Ep & Hmin).
  exists p. split; [by rewrite <- HP|]. split; [done|].
  intros q Hq. apply Hmin. by rewrite HP.
Qed.

(** One fulfilled promise is enough for [Promise.any] to fulfil. *)
Lemma any_fulfils (ps : list (timed A)) p :
  p ∈ ps -> is_fulfilled p = true -> exists a, any ps = Fulfilled a.
Proof.
  intros Hp Hful. unfold any. destruct ps as [|p0 ps]; [by apply elem_of_nil in Hp|].
  set (l := p0 :: ps) in *.
  assert (HP : settling_order l ≡ₚ l) by apply merge_sort_Permutation.
  destruct (first_fulfilled (settling_order l)) as [b|] eqn:E; [by eauto|].
  rewrite (first_fulfilled_none _ E p) in Hful; [done|by rewrite HP].
Qed.

End RaceWinner.

Section RaceOutcome.

Context (W : World).

Lemma autodiscoverDomains_settings_of_body domains e pw user requested winner :
  any (attempts W domains user pw (createAutodiscoverSoap e requested)) = Fulfilled winner ->
  autodiscoverDomains W domains e pw user requested = settings_of_body W winner.
Proof. intros H. unfold autodiscoverDomains, settings_of_body. cbv zeta. by rewrite H. Qed.

End RaceOutcome.

(** X7: as soon as one attempt fulfils, the race is won by a fulfilled
    attempt that no other fulfilled attempt settled before, and
    [autodiscoverDomains] settles as the parser and the extractor make of
    that attempt's body; attempts rejected earlier do not matter. *)
Theorem autodiscoverDomains_first_success_wins (W : World) (domains : list string)
    (e : string) (pw user requested : Js.val) (p : timed RpValue) :
  let promises := attempts W domains user pw (createAutodiscoverSoap e requested) in
  p ∈ promises -> is_fulfilled p = true ->
  exists winner body,
    winner ∈ promises /\ outcome winner = Fulfilled body /\
    (forall q, q ∈ promises -> is_fulfilled q = true ->
               settles_at winner <= settles_at q) /\
    autodiscoverDomains W domains e pw user requested = settings_of_body W body.
Proof.
  intros promises Hp Hful.
  destruct (any_fulfils promises p Hp Hful) as (body & Hany).
  destruct (any_fulfilled promises body Hany) as (winner & Hw & Ew & Hmin).
  exists winner, body. repeat split; try done.
  by apply autodiscoverDomains_settings_of_body.
Qed.

Lemma autodiscoverDomains_first_success_wins_witness :
  exists winner body,
    outcome winner = Fulfilled body /\ settles_at winner = 5 /\
    autodiscoverDomains world_of_scenario_1 ["bar.onmicrosoft.com"] "foo@bar.onmicrosoft.com"
      (Js.Str "pass") (Js.Str "foo@bar.onmicrosoft.com") Js.Undefined
    = settings_of_body world_of_scenario_1 body.
Proof.
  destruct (autodiscoverDomains_first_success_wins world_of_scenario_1
              ["bar.onmicrosoft.com"] "foo@bar.onmicrosoft.com"
              (Js.Str "pass") (Js.Str "foo@bar.onmicrosoft.com") Js.Undefined
              (Timed 5 (Fulfilled (Body Scenario.response_xml))))
    as (winner & body & Hin & Hout & Hmin & Hres).
  - right. left.
  - reflexivity.
  - exists winner, body. split; [exact Hout|]. split; [|exact Hres].
    apply elem_of_cons in Hin as [->|Hin]; [discriminate Hout|].
    apply elem_of_cons in Hin as [->|Hin]; [reflexivity|].
    apply elem_of_cons in Hin as [->|Hin]; [discriminate Hout|].
    by apply elem_of_nil in Hin.
Defined.

(** X8: when every attempt that fulfils does so with the same body, the
    result is what the parser and the extractor make of that body,
    whichever attempt it is and whenever each attempt settles. *)
Theorem autodiscoverDomains_result_of_body (W : World) (domains : list string)
    (e : string) (pw user requested : Js.val) (p : timed RpValue) (body : RpValue) :
  let promises := attempts W domains user pw (createAutodiscoverSoap e requested) in
  p ∈ promises -> is_fulfilled p = true ->
  (forall q b, q ∈ promises -> outcome q = Fulfilled b -> b = body) ->
  autodiscoverDomains W domains e pw user requested = settings_of_body W body.
Proof.
  intros promises Hp Hful Hsame.
  destruct (any_fulfils promises p Hp Hful) as (b & Hany).
  destruct (any_fulfilled promises b Hany) as (winner & Hw & Ew & _).
  rewrite (Hsame winner b Hw Ew) in Hany.
  by apply autodiscoverDomains_settings_of_body.
Qed.

Lemma autodiscoverDomains_result_of_body_witness :
  autodiscoverDomains world_of_scenario_1 ["bar.onmicrosoft.com"] "foo@bar.onmicrosoft.com"
    (Js.Str "pass") (Js.Str "foo@bar.onmicrosoft.com") Js.Undefined
  = settings_of_body world_of_scenario_1 (Body Scenario.response_xml).
Proof.
  apply (autodiscoverDomains_result_of_body world_of_scenario_1
           ["bar.onmicrosoft.com"] "foo@bar.onmicrosoft.com"
           (Js.Str "pass") (Js.Str "foo@bar.onmicrosoft.com") Js.Undefined
           (Timed 5 (Fulfilled (Body Scenario.response_xml)))).
  - right. left.
  - reflexivity.
  - intros q b Hq Hb.
    apply elem_of_cons in Hq as [->|Hq]; [discriminate Hb|].
    apply elem_of_cons in Hq as [->|Hq]; [by injection Hb as <-|].
    apply elem_of_cons in Hq as [->|Hq]; [discriminate Hb|].
    by apply elem_of_nil in Hq.
Defined.

(** ** The candidates and the attempts *)

(** X9: when the SRV lookup succeeds, the candidate list is the SMTP domain
    followed by the targets of the records in the resolver's order, kept
    as they come (a target equal to the SMTP domain is kept too), whatever
    the [queryDns] field holds. *)
Theorem candidate_domains_srv_order (W : World) (params : Params) (domain : string)
    (records : list SrvRecord) :
  dnsResolve W ("_autodiscover._tcp." ++ domain) "SRV" = Fulfilled records ->
  queryDns W domain = Fulfilled (srv_name <$> records) /\
  candidate_domains W params domain = Fulfilled (domain :: (srv_name <$> records)).
Proof.
  intros Hdns. split.
  - unfold queryDns. by rewrite Hdns.
  - rewrite candidate_domains_queries. unfold srv_targets. by rewrite Hdns.
Qed.

Lemma candidate_domains_srv_order_witness :
  candidate_domains world_with_two_srv request_with_queryDns_false "bar.com"
  = Fulfilled ["bar.com"; "mail.hoster.example"; "bar.com"].
Proof.
  exact (proj2 (candidate_domains_srv_order world_with_two_srv
                  request_with_queryDns_false "bar.com" _ eq_refl)).
Defined.

(** X10: every call with a string address races three attempts per
    candidate, that is three for the SMTP domain and three more for each
    SRV target; the race is never empty. *)
Theorem attempts_three_per_candidate (W : World) (params : Params) (e : string) :
  exists domains,
    candidate_domains W params (smtpDomain_of e) = Fulfilled domains /\
    length (attempts_of W params e domains)
    = 3 * (1 + length (srv_targets W (smtpDomain_of e))) /\
    any (attempts_of W params e domains) <> Rejected Js.RangeError.
Proof.
  exists (smtpDomain_of e :: srv_targets W (smtpDomain_of e)).
  split; [apply candidate_domains_queries|].
  assert (Hlen : length (attempts_of W params e
                           (smtpDomain_of e :: srv_targets W (smtpDomain_of e)))
                 = 3 * (1 + length (srv_targets W (smtpDomain_of e)))).
  { unfold attempts_of. by rewrite attempts_length. }
  split; [exact Hlen|].
  unfold any.
  destruct (attempts_of W params e _) as [|p ps] eqn:E; [simpl in Hlen; lia|].
  by destruct (first_fulfilled _).
Qed.

(** X11: the third attempt of a domain follows the answer to its GET only
    when the status is 302, posting to the [Location] it names; any other
    status rejects the attempt with the handler's plain error, and a GET
    that gets no response rejects it with the transport's error. *)
Theorem redirect_attempt_follows_only_302 (W : World) (user pw : Js.val)
    (requestBody domain : string) (t : nat) (reply : Reply) :
  transport W (redirect_probe domain) = (t, reply) ->
  attempts_for W user pw requestBody domain !! 2%nat
  = Some match reply with
         | NoReply cause => Timed t (Rejected (Js.RequestError cause))
         | Replied r =>
             if (statusCode r =? 302)%Z
             then let post := tryEndpoint W (location r) user pw requestBody in
                  Timed (t + settles_at post) (outcome post)
             else Timed t (Rejected Js.PlainError)
         end.
Proof.
  intros Ht. unfold attempts_for. simpl lookup. f_equal.
  assert (Hrp : rp W (redirect_probe domain)
                = Timed t match reply with
                          | NoReply cause => Rejected (Js.RequestError cause)
                          | Replied r => Fulfilled (Full r)
                          end).
  { unfold rp. simpl uri. cbv iota. rewrite Ht. by destruct reply. }
  unfold timed_then. rewrite Hrp. simpl.
  destruct reply as [cause|r]; [done|]. simpl.
  destruct (statusCode r =? 302)%Z; simpl; [done|].
  by rewrite Nat.add_0_r.
Qed.

Lemma redirect_attempt_follows_only_302_witness :
  let target := "https://pod51000.outlook.example/autodiscover/autodiscover.svc" in
  let document := Scenario.settings_document
                    (Scenario.user_setting "ExternalEwsUrl" Scenario.ews_url) in
  attempts_for (Scenario.world_with_redirect "bar.com" 302 target document)
    (Js.Str "u") (Js.Str "p") "" "bar.com" !! 2%nat
  = Some (Timed 5 (Fulfilled (Body Scenario.response_xml))) /\
  attempts_for (Scenario.world_with_redirect "bar.com" 301 target document)
    (Js.Str "u") (Js.Str "p") "" "bar.com" !! 2%nat
  = Some (Timed 2 (Rejected Js.PlainError)).
Proof.
  intros target document. split.
  - exact (redirect_attempt_follows_only_302
             (Scenario.world_with_redirect "bar.com" 302 target document)
             (Js.Str "u") (Js.Str "p") "" "bar.com" 2 _ eq_refl).
  - exact (redirect_attempt_follows_only_302
             (Scenario.world_with_redirect "bar.com" 301 target document)
             (Js.Str "u") (Js.Str "p") "" "bar.com" 2 _ eq_refl).
Defined.

(** ** The extractor once more *)

Lemma reduce_store_setting_nullish entries acc :
  Exists (fun entry => Js.nullish entry = true) entries ->
  reduce store_setting entries acc = Js.Throw Js.TypeError.
Proof.
  intros H. revert acc. induction entries as [|entry entries IH]; intros acc.
  - by apply Exists_nil in H.
  - simpl. destruct (Js.nullish entry) eqn:E.
    + by destruct entry.
    + rewrite store_setting_entry by done. simpl. apply IH.
      apply Exists_cons in H as [H|H]; [congruence|done].
Qed.

(** X12: the extractor fulfils exactly when no entry of the [userSetting]
    sequence is [undefined] or [null]; on such an entry the read of its
    name throws and no settings are returned. *)
Theorem extract_settings_needs_nodes (tree node : Js.val) :
  find_node tree response_path = Some node ->
  (Exists (fun entry => Js.nullish entry = true) (entries_of node) ->
   extract_settings tree = Js.Throw Js.TypeError) /\
  (Forall (fun entry => Js.nullish entry = false) (entries_of node) ->
   exists m, extract_settings tree = Js.Normal m).
Proof.
  intros Hnode.
  assert (E : extract_settings tree
              = reduce store_setting (entries_of node) (Js.plain ∅)).
  { unfold extract_settings. rewrite (read_path_found _ _ _ Hnode). simpl.
    by destruct node. }
  split; intros H; rewrite E.
  - by apply reduce_store_setting_nullish.
  - destruct (reduce_store_setting _ (Js.plain ∅) H) as (m & Hm & _). eauto.
Qed.

Lemma extract_settings_needs_nodes_witness :
  extract_settings
    (Scenario.rename (removePrefix Scenario.lowerCase)
       (Scenario.settings_document
          (Js.Arr [Scenario.user_setting "ExternalEwsUrl" Scenario.ews_url; Js.Null])))
  = Js.Throw Js.TypeError.
Proof.
  refine (proj1 (extract_settings_needs_nodes
                   (Scenario.rename (removePrefix Scenario.lowerCase)
                      (Scenario.settings_document
                         (Js.Arr [Scenario.user_setting "ExternalEwsUrl" Scenario.ews_url;
                                  Js.Null])))
                   (Js.Arr [Scenario.rename (removePrefix Scenario.lowerCase)
                              (Scenario.user_setting "ExternalEwsUrl" Scenario.ews_url);
                            Js.Null]) eq_refl) _).
  right. left. reflexivity.
Defined.

(** ** The exported function once more *)
Section Exported.

Context (W : World).

Lemma module_exports_of_body params (cb : callback) e domains winner :
  emailAddress params = Js.Str e ->
  candidate_domains W params (smtpDomain_of e) = Fulfilled domains ->
  any (attempts_of W params e domains) = Fulfilled winner ->
  module_exports W params cb
  = match settings_of_body W winner with
    | Fulfilled m =>
        let result := shape_result (settings params) m in
        match cb with
        | None => Returned (Fulfilled result) []
        | Some f =>
            match f (CbResult result) with
            | None => Returned (Fulfilled result) [CbResult result]
            | Some thrown =>
                Returned (Rejected (default thrown (f (CbError thrown))))
                  [CbResult result; CbError thrown]
            end
        end
    | Rejected errors =>
        match cb with
        | None => Returned (Rejected errors) []
        | Some f =>
            Returned (Rejected (default errors (f (CbError errors)))) [CbError errors]
        end
    end.
Proof.
  intros He Hd Hany. rewrite (module_exports_settles W params cb e domains He Hd).
  by rewrite (autodiscoverDomains_settings_of_body W _ _ _ _ _ _ Hany).
Qed.

End Exported.

(** X13: when the body that won the race does not parse, the callback, if
    one is given, is called once, with the parser's error; the call is
    rejected with that error, or with what the callback throws when it
    throws. *)
Theorem parse_failure_rejects (W : World) (params : Params) (cb : callback)
    (e : string) (domains : list string) (winner : RpValue) (reason : Js.error) :
  emailAddress params = Js.Str e ->
  candidate_domains W params (smtpDomain_of e) = Fulfilled domains ->
  any (attempts_of W params e domains) = Fulfilled winner ->
  xmlToJson W winner = Rejected reason ->
  module_exports W params cb
  = match cb with
    | None => Returned (Rejected reason) []
    | Some f =>
        Returned (Rejected (match f (CbError reason) with
                            | Some thrown => thrown
                            | None => reason
                            end))
          [CbError reason]
    end.
Proof.
  intros He Hd Hany Hparse.
  rewrite (module_exports_of_body W params cb e domains winner He Hd Hany).
  unfold settings_of_body. rewrite Hparse. simpl.
  destruct cb as [f|]; [|done]. by destruct (f (CbError reason)).
Qed.

Lemma parse_failure_rejects_witness :
  module_exports world_answering_html (Scenario.params_for "foo@bar.com") true
  = Returned (Rejected (Js.XmlError "Unclosed root tag"))
      [CbError (Js.XmlError "Unclosed root tag")] /\
  module_exports world_answering_html (Scenario.params_for "foo@bar.com")
    throwing_callback
  = Returned (Rejected Js.PlainError) [CbError (Js.XmlError "Unclosed root tag")].
Proof.
  split.
  - exact (parse_failure_rejects world_answering_html
             (Scenario.params_for "foo@bar.com") true "foo@bar.com" ["bar.com"]
             (Body "<html>") _ eq_refl eq_refl eq_refl eq_refl).
  - exact (parse_failure_rejects world_answering_html
             (Scenario.params_for "foo@bar.com") throwing_callback "foo@bar.com"
             ["bar.com"] (Body "<html>") _ eq_refl eq_refl eq_refl eq_refl).
Defined.

(** X14: when the winning body parses to a tree with the [userSetting]
    node and well-formed entries none of which is named [__proto__], the
    result is, for a falsy [settings], the value of the last
    ExternalEwsUrl entry, which is [undefined] when the response has no
    such entry, and, for a truthy [settings], the plain object that maps
    each name to the value of its last entry.  Without a callback the call
    resolves with the result; a callback is called with it, and when it
    throws, it is called a second time, with what it threw, and the call
    is rejected with that, or with what the second call throws. *)
Theorem module_exports_resolves_with (W : World) (params : Params) (cb : callback)
    (e : string) (domains : list string) (winner : RpValue) (tree node : Js.val) :
  emailAddress params = Js.Str e ->
  candidate_domains W params (smtpDomain_of e) = Fulfilled domains ->
  any (attempts_of W params e domains) = Fulfilled winner ->
  xmlToJson W winner = Fulfilled tree ->
  find_node tree response_path = Some node ->
  Forall (fun entry => Js.nullish entry = false) (entries_of node) ->
  Forall (fun entry => entry_key entry <> "__proto__") (entries_of node) ->
  exists m,
    (forall k, m !! k = last_value k (entries_of node)) /\
    let result :=
      if Js.truthy (settings params) then SettingsObject (Js.plain m)
      else SettingValue
             (default Js.Undefined (last_value EWS_URL_SETTING (entries_of node))) in
    module_exports W params cb
    = match cb with
      | None => Returned (Fulfilled result) []
      | Some f =>
          match f (CbResult result) with
          | None => Returned (Fulfilled result) [CbResult result]
          | Some thrown =>
              Returned (Rejected (match f (CbError thrown) with
                                  | Some again => again
                                  | None => thrown
                                  end))
                [CbResult result; CbError thrown]
          end
      end.
Proof.
  intros He Hd Hany Hparse Hnode Hentries Hnamed.
  destruct (reduce_store_setting _ (Js.plain ∅) Hentries) as (o & Ho & Hlookup).
  destruct (reduce_store_setting_named _ (Js.plain ∅) Hentries Hnamed o Ho)
    as [Hproto Hown].
  assert (Hk : forall k, Js.own o !! k = last_value k (entries_of node)).
  { intros k. destruct (decide (k = "__proto__")) as [->|Hne].
    - rewrite Hown. simpl. rewrite lookup_empty. symmetry.
      by apply last_value_unnamed.
    - rewrite (Hlookup k Hne). destruct (last_value k _); [done|apply lookup_empty]. }
  assert (Hplain : o = Js.plain (Js.own o)).
  { destruct o as [properties prototype]. simpl in Hproto. by subst. }
  exists (Js.own o). split; [exact Hk|]. cbv zeta.
  rewrite (module_exports_of_body W params cb e domains winner He Hd Hany).
  unfold settings_of_body. rewrite Hparse. simpl.
  assert (Hx : extract_settings tree = Js.Normal o).
  { unfold extract_settings. rewrite (read_path_found _ _ _ Hnode). simpl.
    by destruct node. }
  rewrite Hx. simpl.
  assert (Hshape : shape_result (settings params) o
                   = if Js.truthy (settings params) then SettingsObject (Js.plain (Js.own o))
                     else SettingValue
                            (default Js.Undefined
                               (last_value EWS_URL_SETTING (entries_of node)))).
  { unfold shape_result. destruct (Js.truthy (settings params)); [by rewrite <- Hplain|].
    f_equal. unfold Js.read. rewrite Hk, Hproto. by destruct (last_value _ _). }
  rewrite Hshape. destruct cb as [f|]; [|done].
  destruct (f (CbResult _)) as [thrown|]; [|done].
  by destruct (f (CbError thrown)).
Qed.

Lemma module_exports_resolves_with_witness :
  module_exports world_without_ews_url (Scenario.params_for "foo@bar.com") true
  = Returned (Fulfilled (SettingValue Js.Undefined))
      [CbResult (SettingValue Js.Undefined)] /\
  module_exports world_without_ews_url (Scenario.params_for "foo@bar.com")
    throwing_callback
  = Returned (Rejected Js.PlainError)
      [CbResult (SettingValue Js.Undefined); CbError Js.PlainError].
Proof.
  split.
  - destruct (module_exports_resolves_with world_without_ews_url
                (Scenario.params_for "foo@bar.com") true "foo@bar.com" ["bar.com"]
                (Body Scenario.response_xml)
                (Scenario.rename (removePrefix Scenario.lowerCase)
                   (Scenario.settings_document
                      (Scenario.user_setting "ExternalEwsVersion" "15.00.0000.000")))
                (Scenario.rename (removePrefix Scenario.lowerCase)
                   (Scenario.user_setting "ExternalEwsVersion" "15.00.0000.000"))
                eq_refl eq_refl eq_refl eq_refl eq_refl) as (m & _ & H).
    + repeat constructor.
    + repeat constructor. discriminate.
    + exact H.
  - destruct (module_exports_resolves_with world_without_ews_url
                (Scenario.params_for "foo@bar.com") throwing_callback "foo@bar.com"
                ["bar.com"] (Body Scenario.response_xml)
                (Scenario.rename (removePrefix Scenario.lowerCase)
                   (Scenario.settings_document
                      (Scenario.user_setting "ExternalEwsVersion" "15.00.0000.000")))
                (Scenario.rename (removePrefix Scenario.lowerCase)
                   (Scenario.user_setting "ExternalEwsVersion" "15.00.0000.000"))
                eq_refl eq_refl eq_refl eq_refl eq_refl) as (m & _ & H).
    + repeat constructor.
    + repeat constructor. discriminate.
    + exact H.
Defined.

(** X15: the [queryDns] field has no effect: replacing it by any value
    leaves the outcome of the call unchanged. *)
Theorem queryDns_field_ignored (W : World) (params : Params) (flag : Js.val)
    (cb : bool) :
  module_exports W (with_queryDns params flag) cb = module_exports W params cb.
Proof.
  unfold module_exports. simpl.
  destruct (emailAddress params); try done.
  by rewrite !otherDomains_queries.
Qed.

(** X16: a falsy [username] (omitted, or the empty string) stands for the
    email address: the call behaves as with the address passed as
    [username]. *)
Theorem username_defaults_to_address (W : World) (params : Params) (cb : bool)
    (e : string) :
  emailAddress params = Js.Str e ->
  Js.truthy (username params) = false ->
  module_exports W params cb = module_exports W (with_username params (Js.Str e)) cb.
Proof.
  intros He Hu. unfold module_exports. simpl. rewrite He.
  unfold Js.or_else. rewrite Hu.
  replace (if Js.truthy (Js.Str e) then Js.Str e else Js.Str e) with (Js.Str e)
    by (by destruct (Js.truthy (Js.Str e))).
  by rewrite !otherDomains_queries.
Qed.

Lemma username_defaults_to_address_witness :
  module_exports world_of_scenario_1 (Scenario.params_for "foo@bar.onmicrosoft.com") false
  = module_exports world_of_scenario_1
      (with_username (Scenario.params_for "foo@bar.onmicrosoft.com")
         (Js.Str "foo@bar.onmicrosoft.com")) false.
Proof.
  exact (username_defaults_to_address world_of_scenario_1
           (Scenario.params_for "foo@bar.onmicrosoft.com") false
           "foo@bar.onmicrosoft.com" eq_refl eq_refl).
Defined.

(** X17: the call throws, before any promise exists and without a call to
    the callback, exactly when [emailAddress] is not a string; what it
    throws is the engine's [TypeError].  With a string address it always
    returns a promise; a callback is then called once, with the result or
    with the rejection reason, or twice when it throws on the result, the
    second time with what it threw, and the promise is fulfilled only when
    the callback returned from the result. *)
Theorem module_exports_throws_without_address (W : World) (params : Params)
    (cb : callback) :
  match emailAddress params with
  | Js.Str _ =>
      exists p calls,
        module_exports W params cb = Returned p calls /\
        match cb with
        | None => calls = []
        | Some f => callback_protocol f p calls
        end
  | _ => module_exports W params cb = Threw Js.TypeError
  end.
Proof.
  destruct (emailAddress params) as [| | |e| |] eqn:E;
    try (unfold module_exports; by rewrite E).
  rewrite (module_exports_settles W params cb e
             (smtpDomain_of e :: srv_targets W (smtpDomain_of e)) E
             (candidate_domains_queries W params (smtpDomain_of e))).
  destruct (autodiscoverDomains _ _ _ _ _ _) as [m|errors]; cbv zeta.
  - destruct cb as [f|]; [|by eauto].
    destruct (f (CbResult _)) as [thrown|] eqn:Ef.
    + do 2 eexists. split; [reflexivity|]. right. right. by eauto.
    + do 2 eexists. split; [reflexivity|]. left. by eauto.
  - destruct cb as [f|]; [|by eauto].
    do 2 eexists. split; [reflexivity|]. right. left. by eauto.
Qed.

Example call_without_emailAddress :
  module_exports world_of_scenario_1 request_without_emailAddress true
  = Threw Js.TypeError.
Proof. reflexivity. Qed.
